(** * Microsoft 365 licence report: a model of [m365_license_report.py]

    The script authenticates against the identity provider, walks the pages
    of the Graph [/users] collection, flattens each user's licences into one
    string and writes the rows to a CSV file.  The development below embeds
    the three functions and [main] and states their properties.

    Conventions.
    - A Python [str] is a sequence of code points, lone surrogates
      included.  It is represented by the [string] of bytes that encodes
      each of its code points in the UTF-8 scheme, a surrogate taking the
      three bytes the scheme gives it (the codec's surrogatepass form).
      Every string operation of the script (concatenation, [join],
      emptiness, the CSV quoting of the ASCII characters comma, quote, CR
      and LF) commutes with that representation.  A text without
      surrogates is its own UTF-8 encoding; a text with one cannot be
      written to a file opened with [encoding="utf-8"].
    - A value decoded from JSON is a [json]; a Python [dict] is the list of
      its items in insertion order.
    - A raised exception is the left injection of a sum. *)

From Stdlib Require Import ZArith String Ascii List Bool DecimalString.
From Stdlib Require Import Floats.SpecFloat.
From stdpp Require Import gmap strings.

Set Warnings "-register-all".

Open Scope string_scope.
Open Scope list_scope.

(** ** Python values *)

Inductive json : Type :=
| JNull
| JBool (b : bool)
| JInt (n : Z)
| JFloat (x : spec_float)
| JStr (s : string)
| JArr (items : list json)
| JObj (members : list (string * json)).

Definition dict : Type := list (string * json).

Inductive exn : Type :=
| Exception (msg : string)
| KeyError (key : string)
| TypeError
| AttributeError
| JSONDecodeError
| ConnectionError
| OSError (path : string)
| UnicodeEncodeError.

(** The error monad of a computation that may raise. *)
Definition result (A : Type) : Type := exn + A.

Definition rbind {A B : Type} (m : result A) (k : A -> result B) : result B :=
  match m with
  | inl e => inl e
  | inr a => k a
  end.

Notation "'let*' x := m 'in' k" := (rbind m (fun x => k))
  (at level 10, x name, m at level 100, k at level 200, only parsing).

Definition raises {A : Type} (m : result A) : Prop :=
  match m with inl _ => True | inr _ => False end.

(** [key in d] and [d.get(key, default)] on a dictionary. *)
Fixpoint dict_lookup (key : string) (d : dict) : option json :=
  match d with
  | [] => None
  | (k, v) :: rest => if String.eqb k key then Some v else dict_lookup key rest
  end.

Definition dict_contains (key : string) (d : dict) : bool :=
  match dict_lookup key d with Some _ => true | None => false end.

Definition dict_get (d : dict) (key : string) (default : json) : json :=
  match dict_lookup key d with Some v => v | None => default end.

(** [o.get(key, default)]: only a dictionary has the method. *)
Definition py_get (o : json) (key : string) (default : json) : result json :=
  match o with
  | JObj d => inr (dict_get d key default)
  | _ => inl AttributeError
  end.

(** [o[key]] with a string key: a missing key of a dictionary is a
    [KeyError], any other value rejects the string subscript. *)
Definition py_getitem (o : json) (key : string) : result json :=
  match o with
  | JObj d =>
      match dict_lookup key d with
      | Some v => inr v
      | None => inl (KeyError key)
      end
  | _ => inl TypeError
  end.

Fixpoint chars_of (s : string) : list json :=
  match s with
  | EmptyString => []
  | String c rest => JStr (String c EmptyString) :: chars_of rest
  end.

(** [for x in o]: a list yields its items, a string its characters, a
    dictionary its keys; nothing else is iterable. *)
Definition py_iter (o : json) : result (list json) :=
  match o with
  | JArr items => inr items
  | JStr s => inr (chars_of s)
  | JObj d => inr (map (fun kv => JStr (fst kv)) d)
  | _ => inl TypeError
  end.

(** Truth value of an object, as tested by [while url] and [if skus]. *)
Definition py_bool (o : json) : bool :=
  match o with
  | JNull => false
  | JBool b => b
  | JInt n => negb (Z.eqb n 0)
  | JFloat (S754_zero _) => false
  | JFloat _ => true
  | JStr s => negb (String.eqb s "")
  | JArr items => match items with [] => false | _ => true end
  | JObj d => match d with [] => false | _ => true end
  end.

(** [sep.join(items)]: every item has to be a [str]. *)
Fixpoint str_join (sep : string) (items : list json) : result string :=
  match items with
  | [] => inr ""
  | JStr s :: rest =>
      match rest with
      | [] => inr s
      | _ => let* t := str_join sep rest in inr (s +:+ sep +:+ t)
      end
  | _ :: _ => inl TypeError
  end.

(** ** [repr()] and [str()]

    What the interpreter brings along: the shortest decimal text of a
    float, and the table of the code points that count as printable. *)
Record interpreter : Type := {
  float_repr : spec_float -> string;
  isprintable : N -> bool
}.

Definition tab : ascii := "009".
Definition newline : ascii := "010".
Definition carriage_return : ascii := "013".
Definition single_quote : ascii := "039".
Definition double_quote : ascii := "034".
Definition backslash : ascii := "092".

Definition hex_digit (n : N) : ascii :=
  match N.to_nat n with
  | 0%nat => "0" | 1%nat => "1" | 2%nat => "2" | 3%nat => "3" | 4%nat => "4"
  | 5%nat => "5" | 6%nat => "6" | 7%nat => "7" | 8%nat => "8" | 9%nat => "9"
  | 10%nat => "a" | 11%nat => "b" | 12%nat => "c" | 13%nat => "d" | 14%nat => "e"
  | _ => "f"
  end%char.

(** [n] in hexadecimal on [digits] digits. *)
Fixpoint hex (digits : nat) (n : N) : string :=
  match digits with
  | O => ""
  | S d => hex d (n / 16)%N +:+ String (hex_digit (n mod 16)%N) ""
  end.

(** The escape of a code point that is not written as it is. *)
Definition escape_code (n : N) : string :=
  if (n <=? 255)%N then String backslash ("x" +:+ hex 2 n)
  else if (n <=? 65535)%N then String backslash ("u" +:+ hex 4 n)
  else String backslash ("U" +:+ hex 8 n).

(** An ASCII character inside the quotes [q]. *)
Definition repr_ascii (q c : ascii) : string :=
  if Ascii.eqb c q || Ascii.eqb c backslash then String backslash (String c "")
  else if Ascii.eqb c tab then String backslash "t"
  else if Ascii.eqb c newline then String backslash "n"
  else if Ascii.eqb c carriage_return then String backslash "r"
  else if (N_of_ascii c <? 32)%N || (N_of_ascii c =? 127)%N then escape_code (N_of_ascii c)
  else String c "".

(** The first byte of a character: an ASCII character is written at once,
    the lead byte of a longer sequence announces how many bytes follow and
    gives the high bits of the code point. *)
Definition first_byte (q c : ascii) : string + (nat * N) :=
  let n := N_of_ascii c in
  if (n <? 128)%N then inl (repr_ascii q c)
  else if (192 <=? n)%N && (n <? 224)%N then inr (1%nat, (n mod 32)%N)
  else if (224 <=? n)%N && (n <? 240)%N then inr (2%nat, (n mod 16)%N)
  else if (240 <=? n)%N && (n <? 248)%N then inr (3%nat, (n mod 8)%N)
  else inl (String c "").

Definition is_continuation (c : ascii) : bool :=
  (128 <=? N_of_ascii c)%N && (N_of_ascii c <? 192)%N.

Fixpoint contains (c : ascii) (s : string) : bool :=
  match s with
  | EmptyString => false
  | String a rest => Ascii.eqb a c || contains c rest
  end.

(** Single quotes, unless the text has single quotes and no double quote. *)
Definition repr_quote (s : string) : ascii :=
  if contains single_quote s && negb (contains double_quote s) then double_quote
  else single_quote.

Section Script.

Variable python : interpreter.

(** The characters of a text between the quotes [q].  [k] bytes of the
    current character are still to come, [code] holds the bits read so
    far and [raw] its bytes; a printable character is copied, any other
    is escaped.  Bytes that encode no character, which a [str] never
    gives, are copied. *)
Fixpoint repr_bytes (q : ascii) (k : nat) (code : N) (raw : string) (s : string) : string :=
  match s with
  | EmptyString => raw
  | String c rest =>
      let fresh :=
        match first_byte q c with
        | inl out => out +:+ repr_bytes q 0 0%N "" rest
        | inr (k1, code1) => repr_bytes q k1 code1 (String c "") rest
        end in
      match k with
      | O => fresh
      | S k' =>
          if is_continuation c then
            let code' := (code * 64 + N_of_ascii c mod 64)%N in
            let raw' := raw +:+ String c "" in
            match k' with
            | O =>
                (if isprintable python code' then raw' else escape_code code')
                +:+ repr_bytes q 0 0%N "" rest
            | S _ => repr_bytes q k' code' raw' rest
            end
          else raw +:+ fresh
      end
  end.

(** [repr()] of a [str]. *)
Definition str_repr (s : string) : string :=
  String (repr_quote s) (repr_bytes (repr_quote s) 0 0%N "" s +:+ String (repr_quote s) "").

(** One item of the [repr()] of a dictionary. *)
Definition item_repr (key : string) (value : string) : string :=
  str_repr key +:+ ": " +:+ value.

(** [repr()] of a value decoded from JSON. *)
Fixpoint py_repr (o : json) : string :=
  match o with
  | JNull => "None"
  | JBool true => "True"
  | JBool false => "False"
  | JInt n => NilZero.string_of_int (Z.to_int n)
  | JFloat x => float_repr python x
  | JStr s => str_repr s
  | JArr items => "[" +:+ String.concat ", " (map py_repr items) +:+ "]"
  | JObj d =>
      "{" +:+ String.concat ", "
                (map (fun kv => match kv with (k, v) => item_repr k (py_repr v) end) d)
          +:+ "}"
  end.

(** [str()], which [format()] and the CSV writer apply: a [str] is
    itself, any other value is its [repr()]. *)
Definition py_str (o : json) : string :=
  match o with
  | JNull => "None"
  | JBool true => "True"
  | JBool false => "False"
  | JInt n => NilZero.string_of_int (Z.to_int n)
  | JStr s => s
  | _ => py_repr o
  end.


(** ** The fetcher *)

Definition GRAPH_API_ENDPOINT : string := "https://graph.microsoft.com/v1.0".

Record response : Type := {
  status_code : Z;
  text : string;
  (** what [response.json()] returns, [None] when the body does not decode *)
  json_body : option json
}.

Record request : Type := {
  req_url : json;
  req_headers : list (string * string)
}.

(** One row of the report, the dictionary built for each user. *)
Record user_row : Type := {
  UserPrincipalName : json;
  DisplayName : json;
  AccountEnabled : json;
  AssignedLicenses : string
}.

Fixpoint collect {A B : Type} (f : A -> result B) (l : list A) : result (list B) :=
  match l with
  | [] => inr []
  | a :: rest => let* b := f a in let* bs := collect f rest in inr (b :: bs)
  end.

(** [[lic["skuId"] for lic in user.get("assignedLicenses", [])]] *)
Definition license_skus (user : json) : result (list json) :=
  let* lics := py_get user "assignedLicenses" (JArr []) in
  let* entries := py_iter lics in
  collect (fun lic => py_getitem lic "skuId") entries.

(** [", ".join(license_skus) if license_skus else "None"] *)
Definition joined_licenses (skus : list json) : result string :=
  if py_bool (JArr skus) then str_join ", " skus else inr "None".

Definition user_record (user : json) : result user_row :=
  let* skus := license_skus user in
  let* upn := py_get user "userPrincipalName" JNull in
  let* name := py_get user "displayName" JNull in
  let* enabled := py_get user "accountEnabled" JNull in
  let* lic := joined_licenses skus in
  inr {| UserPrincipalName := upn; DisplayName := name;
         AccountEnabled := enabled; AssignedLicenses := lic |}.

(** The [for user in ...] loop: each record is appended to [users]. *)
Fixpoint for_users (items : list json) (users : list user_row) : result (list user_row) :=
  match items with
  | [] => inr users
  | user :: rest => let* r := user_record user in for_users rest (users ++ [r])
  end.

Definition response_json (r : response) : result json :=
  match json_body r with
  | Some data => inr data
  | None => inl JSONDecodeError
  end.

(** The body of the [while] loop after the GET: the status test, the
    records of the page and the next value of [url]. *)
Definition page_step (r : response) (users : list user_row)
  : result (list user_row * json) :=
  if negb (Z.eqb (status_code r) 200) then
    inl (Exception ("Graph API error: " +:+ text r))
  else
    let* data := response_json r in
    let* value := py_get data "value" (JArr []) in
    let* items := py_iter value in
    let* users' := for_users items users in
    let* next := py_get data "@odata.nextLink" JNull in
    inr (users', next).

(** The network as the script sees it: the responses the collection
    endpoint is going to deliver, in order, and the GET requests issued so
    far.  A GET is answered by the next response; when none is left the
    transport fails.  A run of the script that ends has read finitely many
    responses, so the list describes every such run. *)
Record net : Type := {
  pending : list response;
  sent : list request
}.

Fixpoint while_url (headers : list (string * string)) (url : json)
    (users : list user_row) (todo : list response) (log : list request)
  : result (list user_row) * net :=
  if py_bool url then
    let log' := log ++ [ {| req_url := url; req_headers := headers |} ] in
    match todo with
    | [] => (inl ConnectionError, {| pending := []; sent := log' |})
    | r :: rest =>
        match page_step r users with
        | inl e => (inl e, {| pending := rest; sent := log' |})
        | inr (users', next) => while_url headers next users' rest log'
        end
    end
  else (inr users, {| pending := todo; sent := log |}).

Definition users_url : string :=
  GRAPH_API_ENDPOINT
  +:+ "/users?$select=id,displayName,userPrincipalName,assignedLicenses,accountEnabled".

Definition bearer (token : json) : list (string * string) :=
  [("Authorization", "Bearer " +:+ py_str token)].

Definition fetch_users_with_licenses (token : json) (n : net)
  : result (list user_row) * net :=
  while_url (bearer token) (JStr users_url) [] (pending n) (sent n).

(** ** The exporter

    [csv.DictWriter] with the default dialect: fields separated by a comma,
    rows ended by CR LF, a field quoted exactly when it contains a comma, a
    quote, a CR or a LF, and a quote inside a quoted field written twice.
    The record of a row holding one empty field is written as a pair of
    quotes. *)

Definition comma : ascii := ",".
Definition dquote : ascii := "034".
Definition CR : ascii := "013".
Definition LF : ascii := "010".
Definition CRLF : string := String CR (String LF "").

Definition is_newline (c : ascii) : bool := Ascii.eqb c CR || Ascii.eqb c LF.

Definition special (c : ascii) : bool :=
  Ascii.eqb c comma || Ascii.eqb c dquote || is_newline c.

Fixpoint has_special (s : string) : bool :=
  match s with
  | EmptyString => false
  | String c rest => special c || has_special rest
  end.

Fixpoint double_quotes (s : string) : string :=
  match s with
  | EmptyString => ""
  | String c rest =>
      if Ascii.eqb c dquote then String dquote (String dquote (double_quotes rest))
      else String c (double_quotes rest)
  end.

Definition csv_field (s : string) : string :=
  if has_special s then String dquote (double_quotes s +:+ String dquote "")
  else s.

Fixpoint join_fields (fs : list string) : string :=
  match fs with
  | [] => ""
  | f :: rest =>
      match rest with
      | [] => csv_field f
      | _ => csv_field f +:+ String comma (join_fields rest)
      end
  end.

Definition csv_record (fs : list string) : string :=
  match fs, join_fields fs with
  | _ :: _, EmptyString => String dquote (String dquote "")
  | _, rec => rec
  end.

Definition csv_row (fs : list string) : string := csv_record fs +:+ CRLF.

(** The text the writer emits for a value: [None] is the empty field, a
    string is itself, anything else goes through [str()]. *)
Definition csv_text (v : json) : string :=
  match v with
  | JNull => ""
  | JStr s => s
  | _ => py_str v
  end.

Definition fieldnames : list string :=
  ["UserPrincipalName"; "DisplayName"; "AccountEnabled"; "AssignedLicenses"].

(** The value a row has under each field name, in the order of [fieldnames]. *)
Definition row_values (u : user_row) : list json :=
  [UserPrincipalName u; DisplayName u; AccountEnabled u; JStr (AssignedLicenses u)].

Definition writerow (values : list json) : string :=
  csv_row (map csv_text values).

Definition writeheader : string := writerow (map JStr fieldnames).

Fixpoint writerows (users : list user_row) : string :=
  match users with
  | [] => ""
  | u :: rest => writerow (row_values u) +:+ writerows rest
  end.

(** ** Reading the file back

    The state machine of [csv.reader] for the same dialect, fed with the
    lines of a file opened with [newline=""], so that a line ends after
    LF, after a CR that no LF follows, and at the end of the text.  After
    the last character of each line the machine is given the end-of-line
    mark; a row is delivered when this leaves it at the start of a record.
    The module's limit on the length of a field is left out. *)

Inductive parser_state : Type :=
| START_RECORD
| START_FIELD
| IN_FIELD
| IN_QUOTED_FIELD
| QUOTE_IN_QUOTED_FIELD
| EAT_CRNL.

Record reader : Type := {
  state : parser_state;
  field : string;
  fields : list string
}.

Definition parse_reset : reader :=
  {| state := START_RECORD; field := ""; fields := [] |}.

Definition goto (st : parser_state) (r : reader) : reader :=
  {| state := st; field := field r; fields := fields r |}.

Definition parse_save_field (r : reader) : reader :=
  {| state := state r; field := ""; fields := fields r ++ [field r] |}.

Definition parse_add_char (c : ascii) (r : reader) : reader :=
  {| state := state r; field := field r +:+ String c ""; fields := fields r |}.

Definition start_field (r : reader) (c : ascii) : reader :=
  if is_newline c then goto EAT_CRNL (parse_save_field r)
  else if Ascii.eqb c dquote then goto IN_QUOTED_FIELD r
  else if Ascii.eqb c comma then goto START_FIELD (parse_save_field r)
  else goto IN_FIELD (parse_add_char c r).

(** [None] is the reader's [Error]. *)
Definition parse_process_char (r : reader) (c : ascii) : option reader :=
  match state r with
  | START_RECORD =>
      if is_newline c then Some (goto EAT_CRNL r) else Some (start_field r c)
  | START_FIELD => Some (start_field r c)
  | IN_FIELD =>
      if is_newline c then Some (goto EAT_CRNL (parse_save_field r))
      else if Ascii.eqb c comma then Some (goto START_FIELD (parse_save_field r))
      else Some (parse_add_char c r)
  | IN_QUOTED_FIELD =>
      if Ascii.eqb c dquote then Some (goto QUOTE_IN_QUOTED_FIELD r)
      else Some (parse_add_char c r)
  | QUOTE_IN_QUOTED_FIELD =>
      if Ascii.eqb c dquote then Some (goto IN_QUOTED_FIELD (parse_add_char c r))
      else if Ascii.eqb c comma then Some (goto START_FIELD (parse_save_field r))
      else if is_newline c then Some (goto EAT_CRNL (parse_save_field r))
      else Some (goto IN_FIELD (parse_add_char c r))
  | EAT_CRNL => if is_newline c then Some r else None
  end.

Definition parse_process_eol (r : reader) : reader :=
  match state r with
  | START_RECORD => r
  | START_FIELD | IN_FIELD | QUOTE_IN_QUOTED_FIELD =>
      goto START_RECORD (parse_save_field r)
  | IN_QUOTED_FIELD => r
  | EAT_CRNL => goto START_RECORD r
  end.

Definition at_record_start (r : reader) : bool :=
  match state r with START_RECORD => true | _ => false end.

Definition in_quotes (r : reader) : bool :=
  match state r with IN_QUOTED_FIELD => true | _ => false end.

(** Does the line end after [c], given the text that follows it? *)
Definition line_ends (c : ascii) (rest : string) : bool :=
  match rest with
  | EmptyString => true
  | String d _ => Ascii.eqb c LF || (Ascii.eqb c CR && negb (Ascii.eqb d LF))
  end.

Fixpoint read_rows (r : reader) (rows : list (list string)) (s : string)
  : option (list (list string)) :=
  match s with
  | EmptyString =>
      if in_quotes r || negb (String.eqb (field r) "")
      then Some (rows ++ [fields (parse_save_field r)])
      else Some rows
  | String c rest =>
      match parse_process_char r c with
      | None => None
      | Some r1 =>
          if line_ends c rest then
            let r2 := parse_process_eol r1 in
            if at_record_start r2 then read_rows parse_reset (rows ++ [fields r2]) rest
            else read_rows r2 rows rest
          else read_rows r1 rows rest
      end
  end.

Definition csv_reader (s : string) : option (list (list string)) :=
  read_rows parse_reset [] s.

(** ** Writing text to the file

    The file is opened with [encoding="utf-8"] and the default error
    handling: a text holding a surrogate cannot be encoded.  In the
    representation of texts a surrogate is the byte 237 followed by a
    byte from 160 to 191. *)

Definition surrogate_start (a b : ascii) : bool :=
  (N_of_ascii a =? 237)%N && (160 <=? N_of_ascii b)%N && (N_of_ascii b <? 192)%N.

Fixpoint has_surrogate (s : string) : bool :=
  match s with
  | EmptyString => false
  | String a rest =>
      match rest with
      | String b _ => surrogate_start a b
      | EmptyString => false
      end
      || has_surrogate rest
  end.

(** [f.write(line)] for each line in turn, after [written]: the encoder
    raises on a line holding a surrogate before any of it is written, and
    the lines after it are not reached. *)
Fixpoint write_lines (lines : list string) (written : string) : result unit * string :=
  match lines with
  | [] => (inr tt, written)
  | line :: rest =>
      if has_surrogate line then (inl UnicodeEncodeError, written)
      else write_lines rest (written +:+ line)
  end.

(** ** The process and its world *)

Record world : Type := {
  (** the dictionary [acquire_token_for_client] obtains from the identity
      provider for an authority, client id, client secret and scopes *)
  identity : string -> string -> string -> list string -> dict;
  network : net;
  files : gmap string string;
  (** the paths [open(_, "w")] cannot open *)
  denied : string -> bool;
  stdout : list string
}.

Definition prog (A : Type) : Type := world -> result A * world.

Definition pbind {A B : Type} (m : prog A) (k : A -> prog B) : prog B :=
  fun w =>
    match m w with
    | (inl e, w') => (inl e, w')
    | (inr a, w') => k a w'
    end.

Notation "'run*' x := m 'in' k" := (pbind m (fun x => k))
  (at level 10, x name, m at level 100, k at level 200, only parsing).
Notation "m ;;; k" := (pbind m (fun _ => k))
  (at level 100, k at level 200, right associativity, only parsing).

Definition print (line : string) : prog unit :=
  fun w =>
    (inr tt, {| identity := identity w; network := network w; files := files w;
                denied := denied w; stdout := stdout w ++ [line] |}).

Definition get_access_token (tenant_id client_id client_secret : string) : prog json :=
  fun w =>
    let authority := "https://login.microsoftonline.com/" +:+ tenant_id in
    let scopes := ["https://graph.microsoft.com/.default"] in
    let token_result := identity w authority client_id client_secret scopes in
    if dict_contains "access_token" token_result then
      (py_getitem (JObj token_result) "access_token", w)
    else
      (inl (Exception ("Failed to acquire token: " +:+ py_str (JObj token_result))), w).

Definition fetch (token : json) : prog (list user_row) :=
  fun w =>
    let (r, n) := fetch_users_with_licenses token (network w) in
    (r, {| identity := identity w; network := n; files := files w;
           denied := denied w; stdout := stdout w |}).

(** The lines the writer hands to [f.write], one call for each: the
    header, then the row of each record. *)
Definition report_lines (users : list user_row) : list string :=
  writeheader :: map (fun u => writerow (row_values u)) users.

(** [open(output_file, "w")] truncates the file, the lines are written in
    turn, and leaving the [with] block closes the file, also when a write
    has raised: the file then holds the lines written before. *)
Definition export_to_csv (users : list user_row) (output_file : string) : prog unit :=
  fun w =>
    if denied w output_file then (inl (OSError output_file), w)
    else
      let (r, content) := write_lines (report_lines users) "" in
      (r,
       {| identity := identity w; network := network w;
          files := <[output_file := content]> (files w);
          denied := denied w; stdout := stdout w |}).

Record arguments : Type := {
  tenant_id : string;
  client_id : string;
  client_secret : string;
  output : string
}.

Definition main (args : arguments) : prog unit :=
  print "🔐 Getting access token..." ;;;
  run* token := get_access_token (tenant_id args) (client_id args) (client_secret args) in
  print "📡 Fetching users and licenses from Microsoft Graph..." ;;;
  run* users := fetch token in
  print ("💾 Exporting report to " +:+ output args +:+ "...") ;;;
  export_to_csv users (output args) ;;;
  print "✅ Done! License report generated successfully.".

End Script.

(** ** The shape of the data, as the collection API documents it *)

(** The licence entries of a user object. *)
Definition licenses_of (user : json) : list json :=
  match user with
  | JObj d =>
      match dict_lookup "assignedLicenses" d with
      | Some (JArr entries) => entries
      | _ => []
      end
  | _ => []
  end.

(** A licence entry is an object and its [skuId], when it has one, is a string. *)
Definition license_shape (lic : json) : bool :=
  match lic with
  | JObj d =>
      match dict_lookup "skuId" d with
      | None | Some (JStr _) => true
      | Some _ => false
      end
  | _ => false
  end.

Definition has_sku (lic : json) : bool :=
  match lic with
  | JObj d => dict_contains "skuId" d
  | _ => false
  end.

Definition sku_of (lic : json) : string :=
  match lic with
  | JObj d =>
      match dict_lookup "skuId" d with
      | Some (JStr s) => s
      | _ => ""
      end
  | _ => ""
  end.

(** A user object: [assignedLicenses] is absent or an array of licence entries. *)
Definition user_shape (user : json) : bool :=
  match user with
  | JObj d =>
      match dict_lookup "assignedLicenses" d with
      | None => true
      | Some (JArr entries) => forallb license_shape entries
      | Some _ => false
      end
  | _ => false
  end.

(** A user object all of whose licence entries carry a [skuId]. *)
Definition complete_user (user : json) : bool :=
  user_shape user && forallb has_sku (licenses_of user).

(** The licence column as the specification words it: the identifiers
    joined, and the word None when the joined text is empty. *)
Definition spec_assigned_licenses (skus : list string) : string :=
  let joined := String.concat ", " skus in
  if String.eqb joined "" then "None" else joined.

(** The status classes of the specification. *)
Definition success_status (code : Z) : Prop := (200 <= code < 300)%Z.

Definition api_error_raised {A : Type} (m : result A) : Prop :=
  exists msg, m = inl (Exception msg).

Definition is_exception (e : exn) : bool :=
  match e with Exception _ => true | _ => false end.

(** [m] raises nothing that was raised with [raise Exception(...)]. *)
Definition builtin_errors {A : Type} (m : result A) : Prop :=
  forall e, m = inl e -> is_exception e = false.

(** The user objects of a page and its continuation cursor. *)
Definition page_users (r : response) : list json :=
  match json_body r with
  | Some (JObj d) =>
      match dict_lookup "value" d with
      | Some (JArr items) => items
      | _ => []
      end
  | _ => []
  end.

Definition cursor (r : response) : option json :=
  match json_body r with
  | Some (JObj d) => dict_lookup "@odata.nextLink" d
  | _ => None
  end.

(** A cursor is the URL of a page: a string, and not the empty one. *)
Definition is_url (v : json) : bool :=
  match v with
  | JStr u => negb (String.eqb u "")
  | _ => false
  end.

(** A page of the collection: status 200, an object whose [value] is
    absent or an array of complete user objects, and whose cursor, when
    there is one, is a URL. *)
Definition page_shape (r : response) : bool :=
  Z.eqb (status_code r) 200
  && match json_body r with
     | Some (JObj d) =>
         match dict_lookup "value" d with
         | None => true
         | Some (JArr items) => forallb complete_user items
         | Some _ => false
         end
     | _ => false
     end
  && match cursor r with
     | None => true
     | Some v => is_url v
     end.

(** A sequence of pages linked by cursors: every page but the last
    carries one, the last carries none. *)
Fixpoint linked (rs : list response) : bool :=
  match rs with
  | [] => false
  | r :: rest =>
      page_shape r
      && match rest, cursor r with
         | [], None => true
         | _ :: _, Some _ => linked rest
         | _, _ => false
         end
  end.

Definition get_request (headers : list (string * string)) (url : json) : request :=
  {| req_url := url; req_headers := headers |}.

(** The URLs the cursors of the pages point to, one for each page but the last. *)
Definition cursor_urls (rs : list response) : list json :=
  map (fun r => default JNull (cursor r)) (removelast rs).

(** An interpreter for the examples, which hold no float and no
    character outside ASCII. *)
Definition no_repr : interpreter :=
  {| float_repr := fun _ => "nan"; isprintable := fun _ => true |}.

Definition ok_page (body : json) : response :=
  {| status_code := 200; text := ""; json_body := Some body |}.

Definition user_with_licenses (entries : list json) : json :=
  JObj [("userPrincipalName", JStr "jane@contoso.com");
        ("displayName", JStr "Doe, Jane");
        ("accountEnabled", JBool true);
        ("assignedLicenses", JArr entries)].

Definition sku (s : string) : json := JObj [("skuId", JStr s)].

(** The text of a sequence of rows, and the configuration of the reader. *)
Fixpoint csv_document (rows : list (list string)) : string :=
  match rows with
  | [] => ""
  | fs :: rest => csv_row fs +:+ csv_document rest
  end.

Definition config (st : parser_state) (buf : string) (fs : list string) : reader :=
  {| state := st; field := buf; fields := fs |}.

(** The machine has read a whole field and is about to meet what ends it. *)
Definition field_read (st : parser_state) (f : string) (r : reader) : Prop :=
  field r = f /\
  (state r = IN_FIELD \/ state r = QUOTE_IN_QUOTED_FIELD \/
   (state r = st /\ csv_field f = "")).

(** The texts of the four columns of a record. *)
Definition row_texts (repr : interpreter) (u : user_row) : list string :=
  map (csv_text repr) (row_values u).

(** [t] occurs in [s]. *)
Definition occurs_in (t s : string) : Prop :=
  exists before after, s = before +:+ t +:+ after.

(** The dictionary the identity provider answers with for the
    credentials of [args]. *)
Definition provider_reply (args : arguments) (w : world) : dict :=
  identity w ("https://login.microsoftonline.com/" +:+ tenant_id args)
    (client_id args) (client_secret args) ["https://graph.microsoft.com/.default"].

(** The file as the specification words it: the line of the four column
    names, then one line for each record. *)
Definition header_line : string :=
  "UserPrincipalName,DisplayName,AccountEnabled,AssignedLicenses" +:+ CRLF.

Definition row_line (repr : interpreter) (u : user_row) : string :=
  String.concat "," (map csv_field (map (csv_text repr) (row_values u))) +:+ CRLF.

(** Example data: two pages, the first one delivering the same user twice. *)
Definition jane : json := user_with_licenses [sku "A"; sku "B"].

Definition page_one : response :=
  ok_page (JObj [("value", JArr [jane; jane]);
                 ("@odata.nextLink", JStr "https://graph.microsoft.com/v1.0/users?$skiptoken=X")]).

Definition page_two : response := ok_page (JObj [("value", JArr [jane])]).

(** The code point U+D800 alone, as a JSON text can hold it. *)
Definition lone_surrogate : string := String "237" (String "160" (String "128" "")).



Definition forbidden : response :=
  {| status_code := 403; text := "Forbidden"; json_body := None |}.

Definition example_args : arguments :=
  {| tenant_id := "tenant"; client_id := "client"; client_secret := "secret";
     output := "report.csv" |}.

Definition example_world (reply : dict) (todo : list response) : world :=
  {| identity := fun _ _ _ _ => reply;
     network := {| pending := todo; sent := [] |};
     files := {["report.csv" := "old"]};
     denied := fun _ => false;
     stdout := [] |}.

(** ** Further notions used to describe the runs of the script *)

(** A licence entry that is an object with a string under [skuId]. *)
Definition sku_is_string (lic : json) : bool :=
  match lic with
  | JObj d =>
      match dict_lookup "skuId" d with
      | Some (JStr _) => true
      | _ => false
      end
  | _ => false
  end.

Definition is_object (v : json) : bool :=
  match v with JObj _ => true | _ => false end.

(** A response with status 200 whose body is an object with [value]
    absent or an array of complete user objects; nothing is asked of the
    cursor. *)
Definition records_shape (r : response) : bool :=
  Z.eqb (status_code r) 200
  && match json_body r with
     | Some (JObj d) =>
         match dict_lookup "value" d with
         | None => true
         | Some (JArr items) => forallb complete_user items
         | Some _ => false
         end
     | _ => false
     end.

Definition has_cursor (r : response) : bool :=
  match cursor r with Some _ => true | None => false end.

(** Pages every one of which carries a cursor. *)
Definition chained (rs : list response) : bool :=
  forallb (fun r => page_shape r && has_cursor r) rs.

(** The lines [main] prints, in order. *)
Definition progress_lines (args : arguments) : list string :=
  ["🔐 Getting access token...";
   "📡 Fetching users and licenses from Microsoft Graph...";
   "💾 Exporting report to " +:+ output args +:+ "...";
   "✅ Done! License report generated successfully."].



Definition row_of (upn name : string) (enabled : bool) (lic : string) : user_row :=
  {| UserPrincipalName := JStr upn; DisplayName := JStr name;
     AccountEnabled := JBool enabled; AssignedLicenses := lic |}.

Definition page_with_empty_cursor : response :=
  ok_page (JObj [("value", JArr [jane]); ("@odata.nextLink", JStr "")]).

(** * Properties *)

(** ** Appending texts *)

Lemma append_cons (a : ascii) (s t : string) : String a s +:+ t = String a (s +:+ t).
Proof. reflexivity. Qed.

Lemma append_nil_r (s : string) : s +:+ "" = s.
Proof. induction s as [|a s IH]; [reflexivity|]. rewrite append_cons, IH. reflexivity. Qed.

Lemma append_assoc (s t u : string) : (s +:+ t) +:+ u = s +:+ (t +:+ u).
Proof.
  induction s as [|a s IH]; [reflexivity|]. rewrite !append_cons, IH. reflexivity.
Qed.

Lemma append_snoc (s : string) (a : ascii) (t : string) :
  (s +:+ String a "") +:+ t = s +:+ String a t.
Proof. rewrite append_assoc. reflexivity. Qed.

(** ** The record of one user *)

Lemma str_join_strings (sep : string) (l : list string) :
  str_join sep (map JStr l) = inr (String.concat sep l).
Proof.
  induction l as [|s l IH]; [reflexivity|].
  destruct l as [|t l]; [reflexivity|].
  change (map JStr (s :: t :: l)) with (JStr s :: map JStr (t :: l)).
  cbn [str_join]. change (map JStr (t :: l)) with (JStr t :: map JStr l) at 1.
  cbv iota. rewrite IH. reflexivity.
Qed.

Lemma collect_skus (entries : list json) :
  forallb license_shape entries = true ->
  forallb has_sku entries = true ->
  collect (fun lic => py_getitem lic "skuId") entries = inr (map JStr (map sku_of entries)).
Proof.
  induction entries as [|lic entries IH]; [reflexivity|].
  cbn [forallb]. intros [Hs Hss]%andb_prop [Hk Hks]%andb_prop.
  cbn [collect map]. rewrite (IH Hss Hks).
  destruct lic; try discriminate.
  unfold py_getitem, sku_of, license_shape, has_sku, dict_contains in *.
  destruct (dict_lookup "skuId" members) as [[]|]; try discriminate; reflexivity.
Qed.

Lemma license_skus_complete (user : json) :
  complete_user user = true ->
  license_skus user = inr (map JStr (map sku_of (licenses_of user))).
Proof.
  unfold complete_user. intros [Hs Hk]%andb_prop.
  destruct user; try discriminate.
  unfold license_skus, py_get, dict_get, user_shape, licenses_of in *. cbn [rbind].
  destruct (dict_lookup "assignedLicenses" members) as [[]|]; try discriminate.
  - cbn [py_iter rbind]. apply collect_skus; assumption.
  - reflexivity.
Qed.

Lemma joined_licenses_strings (skus : list string) :
  joined_licenses (map JStr skus)
  = inr (match skus with [] => "None" | _ => String.concat ", " skus end).
Proof.
  destruct skus as [|s skus]; [reflexivity|].
  unfold joined_licenses. cbn [map py_bool].
  apply (str_join_strings ", " (s :: skus)).
Qed.

Lemma user_record_complete (d : dict) :
  complete_user (JObj d) = true ->
  user_record (JObj d)
  = inr {| UserPrincipalName := dict_get d "userPrincipalName" JNull;
           DisplayName := dict_get d "displayName" JNull;
           AccountEnabled := dict_get d "accountEnabled" JNull;
           AssignedLicenses :=
             match map sku_of (licenses_of (JObj d)) with
             | [] => "None"
             | skus => String.concat ", " skus
             end |}.
Proof.
  intros H. unfold user_record. rewrite (license_skus_complete _ H).
  cbn [rbind py_get]. rewrite joined_licenses_strings. cbn [rbind].
  destruct (map sku_of (licenses_of (JObj d))); reflexivity.
Qed.

(** C2 (as stated).  The claim puts None in the column exactly when the
    joined text is empty; a single entry whose [skuId] is the empty string
    joins to the empty text, and the script, which tests the list and not
    the text, leaves the column empty. *)
Lemma empty_sku_column_not_none :
  ~ (forall user row, user_record user = inr row ->
       AssignedLicenses row = spec_assigned_licenses (map sku_of (licenses_of user))).
Proof.
  intros H.
  specialize (H (user_with_licenses [sku ""]) _ eq_refl).
  discriminate H.
Qed.

(** C2 (amended).  For a user object whose licence entries all carry a
    [skuId], the column holds the identifiers of [assignedLicenses] (none
    when the field is absent) joined with a comma and a space, and the word
    None exactly when there is no entry. *)
Theorem assigned_licenses_flattening (user : json) :
  complete_user user = true ->
  exists row,
    user_record user = inr row /\
    AssignedLicenses row =
      match map sku_of (licenses_of user) with
      | [] => "None"
      | skus => String.concat ", " skus
      end.
Proof.
  intros H. destruct user as [| | | | | |d]; try discriminate H.
  eexists. split; [apply (user_record_complete d H)|reflexivity].
Qed.

Lemma assigned_licenses_flattening_witness :
  complete_user (user_with_licenses [sku "A"; sku "B"]) = true /\
  exists row,
    user_record (user_with_licenses [sku "A"; sku "B"]) = inr row /\
    AssignedLicenses row = "A, B".
Proof.
  split; [reflexivity|].
  exact (assigned_licenses_flattening (user_with_licenses [sku "A"; sku "B"]) eq_refl).
Defined.

Example no_license_entries :
  (let* row := user_record (user_with_licenses []) in inr (AssignedLicenses row))
  = inr "None".
Proof. reflexivity. Qed.

Example no_license_field :
  (let* row := user_record (JObj [("displayName", JStr "Ann")]) in
   inr (AssignedLicenses row))
  = inr "None".
Proof. reflexivity. Qed.

Lemma license_skus_same_field (d d' : dict) :
  dict_lookup "assignedLicenses" d' = dict_lookup "assignedLicenses" d ->
  license_skus (JObj d') = license_skus (JObj d).
Proof.
  intros H. unfold license_skus, py_get, dict_get. rewrite H. reflexivity.
Qed.

Lemma user_record_object (d : dict) :
  user_record (JObj d)
  = (let* skus := license_skus (JObj d) in
     let* lic := joined_licenses skus in
     inr {| UserPrincipalName := default JNull (dict_lookup "userPrincipalName" d);
            DisplayName := default JNull (dict_lookup "displayName" d);
            AccountEnabled := default JNull (dict_lookup "accountEnabled" d);
            AssignedLicenses := lic |}).
Proof.
  unfold user_record. destruct (license_skus (JObj d)) as [e|skus]; [reflexivity|].
  cbn [rbind py_get]. unfold dict_get.
  destruct (joined_licenses skus); cbn [rbind];
    destruct (dict_lookup "userPrincipalName" d), (dict_lookup "displayName" d),
      (dict_lookup "accountEnabled" d); reflexivity.
Qed.

(** C9.  The three top-level fields of a user object are copied as they
    are and an absent one becomes [None]; whether the record can be built
    depends on the [assignedLicenses] field alone, so that a failure is
    never due to an absent top-level field; and with well-formed licence
    entries the record is built whichever of the three fields are there. *)
Theorem user_fields_copied (d : dict) :
  (forall row, user_record (JObj d) = inr row ->
     UserPrincipalName row = default JNull (dict_lookup "userPrincipalName" d) /\
     DisplayName row = default JNull (dict_lookup "displayName" d) /\
     AccountEnabled row = default JNull (dict_lookup "accountEnabled" d)) /\
  (forall d' e,
     dict_lookup "assignedLicenses" d' = dict_lookup "assignedLicenses" d ->
     user_record (JObj d') = inl e -> user_record (JObj d) = inl e) /\
  (complete_user (JObj d) = true -> exists row, user_record (JObj d) = inr row).
Proof.
  split; [|split].
  - intros row. rewrite user_record_object.
    destruct (license_skus (JObj d)) as [e|skus]; [discriminate|]. cbn [rbind].
    destruct (joined_licenses skus) as [e|lic]; [discriminate|]. cbn [rbind].
    intros [= <-]. repeat split.
  - intros d' e Hd. rewrite !user_record_object, (license_skus_same_field d d' Hd).
    destruct (license_skus (JObj d)) as [e'|skus]; [trivial|]. cbn [rbind].
    destruct (joined_licenses skus) as [e'|lic]; [trivial|]. discriminate.
  - intros H. eexists. apply (user_record_complete d H).
Qed.

Lemma user_fields_copied_witness :
  (UserPrincipalName {| UserPrincipalName := JStr "ann@contoso.com"; DisplayName := JNull;
                        AccountEnabled := JNull; AssignedLicenses := "None" |}
   = default JNull (dict_lookup "userPrincipalName" [("userPrincipalName", JStr "ann@contoso.com")]) /\
   DisplayName {| UserPrincipalName := JStr "ann@contoso.com"; DisplayName := JNull;
                  AccountEnabled := JNull; AssignedLicenses := "None" |}
   = default JNull (dict_lookup "displayName" [("userPrincipalName", JStr "ann@contoso.com")]) /\
   AccountEnabled {| UserPrincipalName := JStr "ann@contoso.com"; DisplayName := JNull;
                     AccountEnabled := JNull; AssignedLicenses := "None" |}
   = default JNull (dict_lookup "accountEnabled" [("userPrincipalName", JStr "ann@contoso.com")])) /\
  user_record (JObj [("assignedLicenses", JArr [JObj []])]) = inl (KeyError "skuId").
Proof.
  split.
  - exact (proj1 (user_fields_copied [("userPrincipalName", JStr "ann@contoso.com")]) _ eq_refl).
  - exact (proj1 (proj2 (user_fields_copied [("assignedLicenses", JArr [JObj []])]))
             [("displayName", JStr "Ann"); ("assignedLicenses", JArr [JObj []])]
             _ eq_refl eq_refl).
Defined.

Lemma collect_missing_sku (entries : list json) :
  forallb license_shape entries = true ->
  forallb has_sku entries = false ->
  collect (fun lic => py_getitem lic "skuId") entries = inl (KeyError "skuId").
Proof.
  induction entries as [|lic entries IH]; [discriminate|].
  cbn [forallb collect]. intros [Hs Hss]%andb_prop Hk.
  destruct lic; try discriminate.
  unfold py_getitem, license_shape, has_sku, dict_contains in *.
  destruct (dict_lookup "skuId" members) as [[]|]; try discriminate; [|reflexivity].
  cbn [rbind]. rewrite (IH Hss Hk). reflexivity.
Qed.

Lemma user_record_missing_sku (user : json) :
  user_shape user = true ->
  forallb has_sku (licenses_of user) = false ->
  user_record user = inl (KeyError "skuId").
Proof.
  intros Hs Hk. destruct user; try discriminate.
  unfold user_record, license_skus, py_get, dict_get, user_shape, licenses_of in *.
  destruct (dict_lookup "assignedLicenses" members) as [[]|]; try discriminate.
  cbn [rbind py_iter]. rewrite (collect_missing_sku _ Hs Hk). reflexivity.
Qed.

Lemma getitem_sku (lic : json) :
  (exists v, py_getitem lic "skuId" = inr v) <-> has_sku lic = true.
Proof.
  unfold py_getitem, has_sku, dict_contains.
  destruct lic; try (split; [intros [v [=]]|discriminate]).
  destruct (dict_lookup "skuId" members) as [v|].
  - split; [reflexivity|]. intros _. exists v. reflexivity.
  - split; [intros [v [=]]|discriminate].
Qed.

Lemma collect_sku_iff (entries : list json) :
  (exists skus, collect (fun lic => py_getitem lic "skuId") entries = inr skus)
  <-> forallb has_sku entries = true.
Proof.
  induction entries as [|lic entries IH]; cbn [collect forallb].
  - split; [reflexivity|]. intros _. eexists. reflexivity.
  - rewrite andb_true_iff, <- IH, <- getitem_sku. split.
    + intros [skus H]. destruct (py_getitem lic "skuId") as [e|v]; [discriminate H|].
      cbn [rbind] in H.
      destruct (collect (fun lic => py_getitem lic "skuId") entries) as [e|vs];
        [discriminate H|].
      split; eexists; reflexivity.
    + intros [[v Hv] [vs Hvs]]. rewrite Hv, Hvs. eexists. reflexivity.
Qed.

(** C10 (as stated).  The key being there is not enough for the record
    to be built: with an entry whose [skuId] is null every entry carries
    the key, the lookups succeed, and [join] then refuses the value that
    is not a string. *)
Lemma null_sku_record_fails :
  ~ (forall user,
       is_object user = true -> forallb has_sku (licenses_of user) = true ->
       exists row, user_record user = inr row).
Proof.
  intros H.
  destruct (H (user_with_licenses [JObj [("skuId", JNull)]]) eq_refl eq_refl) as [row Hrow].
  discriminate Hrow.
Qed.

(** C10 (amended).  The lookup of [skuId] is partial.  On a user object
    whose [assignedLicenses] is an array the lookups succeed if and only
    if every entry is an object with the key.  Every user object whose
    licence entries are objects that all carry the key with a string
    under it gives a record; a user object with an entry lacking the key
    makes the record construction, and with it the whole fetch, fail with
    the key error, which is not the error raised for a failed request. *)
Theorem sku_lookup_partial (repr : interpreter) (token : json) :
  (forall d entries,
     dict_lookup "assignedLicenses" d = Some (JArr entries) ->
     (exists skus, license_skus (JObj d) = inr skus) <-> forallb has_sku entries = true) /\
  (forall user,
     user_shape user = true -> forallb has_sku (licenses_of user) = true ->
     exists row, user_record user = inr row) /\
  (forall user,
     user_shape user = true -> forallb has_sku (licenses_of user) = false ->
     user_record user = inl (KeyError "skuId") /\
     ~ api_error_raised (user_record user)) /\
  (exists user,
     user_shape user = true /\ forallb has_sku (licenses_of user) = false /\
     fst (fetch_users_with_licenses repr token
            {| pending := [ok_page (JObj [("value", JArr [user])])]; sent := [] |})
     = inl (KeyError "skuId")).
Proof.
  split; [|split; [|split]].
  - intros d entries Hd. unfold license_skus, py_get, dict_get. rewrite Hd.
    cbn [rbind py_iter]. apply collect_sku_iff.
  - intros user Hs Hk.
    assert (Hc : complete_user user = true)
      by (unfold complete_user; rewrite Hs, Hk; reflexivity).
    destruct user as [| | | | | |d]; try discriminate Hs.
    eexists. apply (user_record_complete d Hc).
  - intros user Hs Hk. rewrite (user_record_missing_sku user Hs Hk).
    split; [reflexivity|]. intros [msg [=]].
  - exists (user_with_licenses [sku "A"; JObj [("skuPartNumber", JStr "E5")]]).
    repeat split.
Qed.

Lemma sku_lookup_partial_witness :
  (exists row, user_record (user_with_licenses [sku "A"; sku "B"]) = inr row) /\
  user_record (user_with_licenses [JObj [("skuPartNumber", JStr "E5")]])
  = inl (KeyError "skuId").
Proof.
  split.
  - exact (proj1 (proj2 (sku_lookup_partial no_repr JNull))
             (user_with_licenses [sku "A"; sku "B"]) eq_refl eq_refl).
  - exact (proj1 (proj1 (proj2 (proj2 (sku_lookup_partial no_repr JNull)))
             (user_with_licenses [JObj [("skuPartNumber", JStr "E5")]]) eq_refl eq_refl)).
Defined.

(** ** Errors *)

Lemma builtin_bind {A B : Type} (m : result A) (k : A -> result B) :
  builtin_errors m -> (forall a, builtin_errors (k a)) -> builtin_errors (rbind m k).
Proof.
  intros Hm Hk e. destruct m as [e'|a]; cbn [rbind].
  - intros [= <-]. exact (Hm e' eq_refl).
  - exact (Hk a e).
Qed.

Lemma builtin_ret {A : Type} (a : A) : builtin_errors (inr a : result A).
Proof. intros e [=]. Qed.

Lemma builtin_py_get (o : json) (key : string) (v : json) :
  builtin_errors (py_get o key v).
Proof. intros e. destruct o; cbn; intros [= <-]; reflexivity. Qed.

Lemma builtin_py_iter (o : json) : builtin_errors (py_iter o).
Proof. intros e. destruct o; cbn; intros [= <-]; reflexivity. Qed.

Lemma builtin_py_getitem (o : json) (key : string) : builtin_errors (py_getitem o key).
Proof.
  intros e. destruct o; cbn; try (intros [= <-]; reflexivity).
  destruct (dict_lookup key members); intros [= <-]; reflexivity.
Qed.

Create HintDb builtin.
#[local] Hint Resolve builtin_py_get builtin_py_iter builtin_py_getitem : builtin.

(** Splits a chain of binds and conditionals into its steps. *)
Ltac builtin_steps :=
  repeat first
    [ apply builtin_ret
    | apply builtin_bind; [|intros ?]
    | match goal with
      | |- builtin_errors (if ?b then _ else _) => destruct b
      | |- builtin_errors (match ?b with _ => _ end) => destruct b
      end ].

Lemma builtin_collect {A B : Type} (f : A -> result B) (l : list A) :
  (forall a, builtin_errors (f a)) -> builtin_errors (collect f l).
Proof.
  intros Hf. induction l as [|a l IH]; cbn [collect].
  - apply builtin_ret.
  - apply builtin_bind; [apply Hf|]. intros b.
    apply builtin_bind; [apply IH|]. intros bs. apply builtin_ret.
Qed.

Lemma builtin_str_join (sep : string) (items : list json) :
  builtin_errors (str_join sep items).
Proof.
  induction items as [|v items IH]; [apply builtin_ret|].
  destruct v; try (intros e [= <-]; reflexivity).
  cbn [str_join]. destruct items as [|w items]; [apply builtin_ret|].
  apply builtin_bind; [exact IH|]. intros t. apply builtin_ret.
Qed.

#[local] Hint Resolve builtin_str_join : builtin.

Lemma builtin_user_record (user : json) : builtin_errors (user_record user).
Proof.
  unfold user_record, license_skus, joined_licenses.
  builtin_steps; auto with builtin.
  apply builtin_collect. auto with builtin.
Qed.

Lemma builtin_for_users (items : list json) (users : list user_row) :
  builtin_errors (for_users items users).
Proof.
  revert users. induction items as [|u items IH]; intros users; cbn [for_users].
  - apply builtin_ret.
  - apply builtin_bind; [apply builtin_user_record|]. intros r. apply IH.
Qed.

Lemma page_step_200 (r : response) (users : list user_row) :
  status_code r = 200%Z -> builtin_errors (page_step r users).
Proof.
  intros H. unfold page_step. rewrite H. cbn [Z.eqb Pos.eqb negb].
  unfold response_json.
  builtin_steps; auto using builtin_for_users with builtin.
  intros e [= <-]. reflexivity.
Qed.

Lemma page_step_not_200 (r : response) (users : list user_row) :
  status_code r <> 200%Z ->
  page_step r users = inl (Exception ("Graph API error: " +:+ text r)).
Proof.
  intros H. unfold page_step.
  destruct (Z.eqb_spec (status_code r) 200) as [E|_]; [contradiction|reflexivity].
Qed.

(** C4 (as stated).  A response with status 204 has a success status and
    still makes the fetcher raise the error of a failed request: the
    script accepts the status 200 only. *)
Lemma success_status_204_raises :
  ~ (forall (r : response) (users : list user_row),
       api_error_raised (page_step r users) <-> ~ success_status (status_code r)).
Proof.
  intros H.
  destruct (H {| status_code := 204; text := ""; json_body := Some (JObj []) |} [])
    as [Hraise _].
  apply Hraise.
  - eexists. reflexivity.
  - unfold success_status. cbn. lia.
Qed.

(** C4 (amended).  The fetcher raises the error of a failed request if
    and only if the status of the response is not 200; the message of the
    error is the fixed prefix followed by the body of the response as it
    is; the error ends the fetch after that one request, nothing is
    retried. *)
Theorem graph_error_iff_not_200 (repr : interpreter) (token : json)
    (r : response) (users : list user_row) (rest : list response) (log : list request) :
  (api_error_raised (page_step r users) <-> status_code r <> 200%Z) /\
  (page_step r users = inl (Exception ("Graph API error: " +:+ text r))
   <-> status_code r <> 200%Z) /\
  (status_code r <> 200%Z ->
   fetch_users_with_licenses repr token {| pending := r :: rest; sent := log |}
   = (inl (Exception ("Graph API error: " +:+ text r)),
      {| pending := rest;
         sent := log ++ [ {| req_url := JStr users_url; req_headers := bearer repr token |} ] |})).
Proof.
  assert (Hback : forall msg, page_step r users = inl (Exception msg) ->
                              status_code r <> 200%Z).
  { intros msg Hm E. apply (page_step_200 r users E) in Hm. discriminate Hm. }
  split; [|split].
  - split.
    + intros [msg Hm]. exact (Hback msg Hm).
    + intros H. eexists. apply (page_step_not_200 r users H).
  - split; [apply Hback|apply page_step_not_200].
  - intros H. unfold fetch_users_with_licenses. cbn [pending sent while_url py_bool].
    change (negb (String.eqb users_url "")) with true. cbv iota.
    rewrite (page_step_not_200 r [] H). reflexivity.
Qed.

Lemma graph_error_iff_not_200_witness :
  fetch_users_with_licenses no_repr (JStr "t")
    {| pending := [ {| status_code := 403; text := "Forbidden"; json_body := None |} ];
       sent := [] |}
  = (inl (Exception "Graph API error: Forbidden"),
     {| pending := [];
        sent := [ {| req_url := JStr users_url;
                     req_headers := [("Authorization", "Bearer t")] |} ] |}).
Proof.
  refine (proj2 (proj2 (graph_error_iff_not_200 no_repr (JStr "t")
            {| status_code := 403; text := "Forbidden"; json_body := None |} [] [] [])) _).
  discriminate.
Defined.

(** ** The pagination loop *)

Lemma collect_app {A B : Type} (f : A -> result B) (l1 l2 : list A) :
  collect f (l1 ++ l2)
  = (let* b1 := collect f l1 in let* b2 := collect f l2 in inr (b1 ++ b2)).
Proof.
  induction l1 as [|a l1 IH]; cbn [collect app rbind].
  - destruct (collect f l2); reflexivity.
  - destruct (f a) as [e|b]; [reflexivity|]. cbn [rbind]. rewrite IH.
    destruct (collect f l1) as [e|b1]; [reflexivity|]. cbn [rbind].
    destruct (collect f l2); reflexivity.
Qed.

Lemma collect_Forall2 {A B : Type} (f : A -> result B) (l : list A) (bs : list B) :
  collect f l = inr bs -> Forall2 (fun a b => f a = inr b) l bs.
Proof.
  revert bs. induction l as [|a l IH]; cbn [collect]; intros bs.
  - intros [= <-]. constructor.
  - destruct (f a) as [e|b] eqn:Hb; [discriminate|]. cbn [rbind].
    destruct (collect f l) as [e|bs']; [discriminate|]. cbn [rbind].
    intros [= <-]. constructor; [exact Hb|apply IH; reflexivity].
Qed.

Lemma collect_complete_users (items : list json) :
  forallb complete_user items = true ->
  exists rows, collect user_record items = inr rows.
Proof.
  induction items as [|u items IH]; cbn [forallb collect].
  - eexists; reflexivity.
  - intros [Hu Hs]%andb_prop. destruct (IH Hs) as [rows Hrows].
    destruct u as [| | | | | |d]; try discriminate Hu.
    rewrite (user_record_complete d Hu), Hrows. eexists; reflexivity.
Qed.

Lemma for_users_collect (items : list json) (users : list user_row) :
  for_users items users
  = (let* rows := collect user_record items in inr (users ++ rows)).
Proof.
  revert users. induction items as [|u items IH]; intros users; cbn [for_users collect rbind].
  - rewrite app_nil_r. reflexivity.
  - destruct (user_record u) as [e|r]; [reflexivity|]. cbn [rbind]. rewrite IH.
    destruct (collect user_record items) as [e|rows]; [reflexivity|]. cbn [rbind].
    rewrite <- app_assoc. reflexivity.
Qed.

Lemma page_step_shape (r : response) (users : list user_row) :
  page_shape r = true ->
  exists rows,
    collect user_record (page_users r) = inr rows /\
    page_step r users = inr (users ++ rows, default JNull (cursor r)).
Proof.
  unfold page_shape, page_step, page_users, cursor, response_json.
  intros [[Hc Hv]%andb_prop _]%andb_prop. rewrite Hc. cbn [negb].
  destruct (json_body r) as [[| | | | | |d]|]; try discriminate Hv.
  cbn [rbind py_get]. unfold dict_get.
  destruct (dict_lookup "value" d) as [[| | | | |items|]|]; try discriminate Hv.
  - cbn [py_iter rbind]. rewrite for_users_collect.
    destruct (collect_complete_users items Hv) as [rows Hrows].
    exists rows. rewrite Hrows. cbn [rbind].
    destruct (dict_lookup "@odata.nextLink" d); split; reflexivity.
  - exists []. cbn [py_iter rbind for_users]. rewrite app_nil_r.
    destruct (dict_lookup "@odata.nextLink" d); split; reflexivity.
Qed.

Lemma is_url_true (v : json) : is_url v = true -> py_bool v = true.
Proof. destruct v; try discriminate. trivial. Qed.

Lemma while_url_cons (h : list (string * string)) (url : json)
    (users : list user_row) (r : response) (rest : list response) (log : list request) :
  py_bool url = true ->
  while_url h url users (r :: rest) log
  = match page_step r users with
    | inl e => (inl e, {| pending := rest; sent := log ++ [get_request h url] |})
    | inr (users', next) => while_url h next users' rest (log ++ [get_request h url])
    end.
Proof. intros H. cbn [while_url]. rewrite H. reflexivity. Qed.

Lemma while_url_stop (h : list (string * string)) (url : json)
    (users : list user_row) (todo : list response) (log : list request) :
  py_bool url = false ->
  while_url h url users todo log = (inr users, {| pending := todo; sent := log |}).
Proof. intros H. destruct todo; cbn [while_url]; rewrite H; reflexivity. Qed.

Lemma while_url_linked (h : list (string * string)) (rs extra : list response) :
  linked rs = true ->
  forall url users log,
    py_bool url = true ->
    exists rows,
      collect user_record (flat_map page_users rs) = inr rows /\
      while_url h url users (rs ++ extra) log
      = (inr (users ++ rows),
         {| pending := extra;
            sent := log ++ map (get_request h) (url :: cursor_urls rs) |}).
Proof.
  induction rs as [|r rs IH]; [discriminate|].
  intros Hl url users log Hurl.
  assert (Hp : page_shape r = true).
  { cbn [linked] in Hl. apply andb_prop in Hl. tauto. }
  destruct (page_step_shape r users Hp) as [rows1 [Hrows1 Hstep]].
  change ((r :: rs) ++ extra) with (r :: (rs ++ extra)).
  rewrite (while_url_cons _ _ _ _ _ _ Hurl), Hstep. cbn [flat_map].
  rewrite collect_app, Hrows1. cbn [rbind].
  destruct rs as [|r2 rs].
  - assert (Hcur : cursor r = None).
    { cbn [linked] in Hl. apply andb_prop in Hl. destruct (cursor r); [|reflexivity].
      destruct Hl; discriminate. }
    rewrite Hcur. cbn [default from_option app]. rewrite (while_url_stop h JNull _ _ _ eq_refl).
    exists rows1. cbn [flat_map collect rbind]. rewrite app_nil_r. split; reflexivity.
  - assert (Hcur : exists v, cursor r = Some v /\ linked (r2 :: rs) = true).
    { cbn [linked] in Hl |- *. apply andb_prop in Hl. destruct (cursor r) as [v|].
      - exists v. split; [reflexivity|]. tauto.
      - destruct Hl; discriminate. }
    destruct Hcur as [v [Hcur Hl']].
    assert (Hv : py_bool v = true).
    { apply is_url_true. unfold page_shape in Hp. rewrite Hcur in Hp.
      apply andb_prop in Hp. tauto. }
    destruct (IH Hl' v (users ++ rows1) (log ++ [get_request h url]) Hv)
      as [rows2 [Hrows2 Hrun]].
    exists (rows1 ++ rows2). rewrite Hrows2. cbn [rbind]. split; [reflexivity|].
    rewrite Hcur. cbn [default from_option id].
    rewrite Hrun, <- !app_assoc. unfold cursor_urls.
    cbn [removelast map app]. rewrite Hcur. reflexivity.
Qed.

Lemma length_flat_map_pages (rs : list response) :
  length (flat_map page_users rs) = sum_list (map (fun r => length (page_users r)) rs).
Proof.
  induction rs as [|r rs IH]; [reflexivity|].
  cbn [flat_map map sum_list]. rewrite length_app, IH. reflexivity.
Qed.

(** C1.  When the endpoint delivers a sequence of pages linked by their
    cursors, the fetcher returns one record for each user object of the
    concatenated [value] arrays, in that order and with repetitions kept:
    the i-th record is the record of the i-th delivered user, and the
    number of records is the sum of the lengths of the arrays. *)
Theorem fetch_concatenates_pages (repr : interpreter) (token : json)
    (rs extra : list response) (log : list request) :
  linked rs = true ->
  exists rows n,
    fetch_users_with_licenses repr token {| pending := rs ++ extra; sent := log |}
    = (inr rows, n) /\
    Forall2 (fun user row => user_record user = inr row) (flat_map page_users rs) rows /\
    length rows = sum_list (map (fun r => length (page_users r)) rs).
Proof.
  intros H.
  destruct (while_url_linked (bearer repr token) rs extra H (JStr users_url) [] log eq_refl)
    as [rows [Hrows Hrun]].
  exists rows. eexists. split; [exact Hrun|].
  pose proof (collect_Forall2 _ _ _ Hrows) as HF. split; [exact HF|].
  rewrite <- (Forall2_length _ _ _ HF). apply length_flat_map_pages.
Qed.

Lemma fetch_concatenates_pages_witness :
  linked [page_one; page_two] = true /\
  exists rows n,
    fetch_users_with_licenses no_repr (JStr "t")
      {| pending := [page_one; page_two] ++ []; sent := [] |} = (inr rows, n) /\
    Forall2 (fun user row => user_record user = inr row) [jane; jane; jane] rows /\
    length rows = 3.
Proof.
  split; [reflexivity|].
  exact (fetch_concatenates_pages no_repr (JStr "t") [page_one; page_two] [] [] eq_refl).
Defined.

Lemma while_url_sent (h : list (string * string)) (todo : list response) :
  forall url users log,
  exists more,
    sent (snd (while_url h url users todo log))
    = log ++ (if py_bool url then get_request h url :: more else []).
Proof.
  induction todo as [|r rest IH]; intros url users log.
  - exists []. cbn [while_url]. destruct (py_bool url); cbn [snd sent].
    + reflexivity.
    + rewrite app_nil_r. reflexivity.
  - destruct (py_bool url) eqn:Hurl.
    + rewrite (while_url_cons _ _ _ _ _ _ Hurl).
      destruct (page_step r users) as [e|[users' next]].
      * exists []. reflexivity.
      * destruct (IH next users' (log ++ [get_request h url])) as [more Hmore].
        rewrite Hmore, <- app_assoc. eexists. reflexivity.
    + rewrite (while_url_stop _ _ _ _ _ Hurl). exists []. cbn [snd sent].
      rewrite app_nil_r. reflexivity.
Qed.

Lemma length_cursor_urls (rs : list response) :
  rs <> [] -> S (length (cursor_urls rs)) = length rs.
Proof.
  unfold cursor_urls. rewrite length_map. intros H.
  induction rs as [|r rs IH]; [contradiction|].
  destruct rs as [|r2 rs]; [reflexivity|].
  change (removelast (r :: r2 :: rs)) with (r :: removelast (r2 :: rs)).
  cbn [length]. rewrite IH; [reflexivity|discriminate].
Qed.

(** C3.  For a sequence of N pages linked by their cursors the loop
    issues exactly N GET requests, the first to the collection URL and
    each further one to the cursor of the page before, and it stops after
    the page without a cursor, leaving what the endpoint would deliver
    next untouched.  After a page the loop goes on if and only if the page
    carries a cursor, and the request that follows goes to the cursor's
    URL. *)
Theorem pagination_requests (repr : interpreter) (token : json)
    (rs extra : list response) (log : list request)
    (h : list (string * string)) (url : json) (users : list user_row)
    (r : response) (rest : list response) (log0 : list request) :
  (linked rs = true ->
   let run := fetch_users_with_licenses repr token {| pending := rs ++ extra; sent := log |} in
   (exists rows, fst run = inr rows) /\
   sent (snd run)
   = log ++ map (get_request (bearer repr token)) (JStr users_url :: cursor_urls rs) /\
   length (sent (snd run)) = length log + length rs /\
   pending (snd run) = extra) /\
  (page_shape r = true -> py_bool url = true ->
   let n := snd (while_url h url users (r :: rest) log0) in
   (is_Some (cursor r) <-> length log0 + 1 < length (sent n)) /\
   (forall next, cursor r = Some next ->
      (log0 ++ [get_request h url; get_request h next]) `prefix_of` sent n)).
Proof.
  split.
  - intros Hl.
    destruct (while_url_linked (bearer repr token) rs extra Hl (JStr users_url) [] log eq_refl)
      as [rows [_ Hrun]].
    unfold fetch_users_with_licenses. cbn [pending sent]. cbv zeta. rewrite Hrun.
    cbn [fst snd sent pending]. repeat split.
    + eexists; reflexivity.
    + rewrite length_app, length_map. cbn [length].
      rewrite length_cursor_urls; [reflexivity|]. intros ->. discriminate Hl.
  - intros Hp Hurl. cbv zeta. rewrite (while_url_cons _ _ _ _ _ _ Hurl).
    destruct (page_step_shape r users Hp) as [rows [_ Hstep]]. rewrite Hstep.
    destruct (cursor r) as [v|] eqn:Hcur; cbn [default from_option id].
    + assert (Hv : py_bool v = true).
      { apply is_url_true. unfold page_shape in Hp. rewrite Hcur in Hp.
        apply andb_prop in Hp. tauto. }
      destruct (while_url_sent h rest v (users ++ rows) (log0 ++ [get_request h url]))
        as [more Hmore].
      rewrite Hv in Hmore. rewrite Hmore. split.
      * split; [|eauto]. intros _. rewrite !length_app. cbn [length]. lia.
      * intros next [= <-]. exists more. rewrite <- !app_assoc. reflexivity.
    + rewrite (while_url_stop h JNull _ _ _ eq_refl). cbn [snd sent]. split.
      * split; [intros [? [=]]|]. rewrite length_app. cbn [length]. lia.
      * intros next [=].
Qed.

Lemma pagination_requests_witness :
  (linked [page_one; page_two] = true /\
   sent (snd (fetch_users_with_licenses no_repr (JStr "t")
                {| pending := [page_one; page_two] ++ [forbidden]; sent := [] |}))
   = [get_request [("Authorization", "Bearer t")] (JStr users_url);
      get_request [("Authorization", "Bearer t")]
        (JStr "https://graph.microsoft.com/v1.0/users?$skiptoken=X")] /\
   pending (snd (fetch_users_with_licenses no_repr (JStr "t")
                   {| pending := [page_one; page_two] ++ [forbidden]; sent := [] |}))
   = [forbidden]) /\
  (page_shape page_one = true /\
   (is_Some (cursor page_one)
    <-> length (@nil request) + 1
        < length (sent (snd (while_url [] (JStr users_url) [] [page_one; page_two] []))))).
Proof.
  pose proof (pagination_requests no_repr (JStr "t") [page_one; page_two] [forbidden] []
                [] (JStr users_url) [] page_one [page_two] []) as [H1 H2].
  split.
  - split; [reflexivity|].
    destruct (H1 eq_refl) as (_ & Hsent & _ & Hpending).
    split; [exact Hsent|exact Hpending].
  - split; [reflexivity|]. exact (proj1 (H2 eq_refl eq_refl)).
Defined.

(** ** Authentication and the order of the three steps *)

Lemma main_after_token (repr : interpreter) (args : arguments) (w : world) :
  main repr args w
  = match get_access_token repr (tenant_id args) (client_id args) (client_secret args)
            (snd (print "🔐 Getting access token..." w)) with
    | (inl e, w1) => (inl e, w1)
    | (inr token, w1) =>
        match fetch repr token
                (snd (print "📡 Fetching users and licenses from Microsoft Graph..." w1)) with
        | (inl e, w2) => (inl e, w2)
        | (inr users, w2) =>
            pbind (print ("💾 Exporting report to " +:+ output args +:+ "..."))
              (fun _ =>
                 pbind (export_to_csv repr users (output args))
                   (fun _ => print "✅ Done! License report generated successfully."))
              w2
        end
    end.
Proof. reflexivity. Qed.

Lemma get_access_token_reply (repr : interpreter) (args : arguments) (w : world) :
  get_access_token repr (tenant_id args) (client_id args) (client_secret args) w
  = match dict_lookup "access_token" (provider_reply args w) with
    | Some token => (inr token, w)
    | None =>
        (inl (Exception ("Failed to acquire token: "
                         +:+ py_str repr (JObj (provider_reply args w)))), w)
    end.
Proof.
  unfold get_access_token, provider_reply, dict_contains, py_getitem.
  destruct (dict_lookup "access_token" _); reflexivity.
Qed.

Lemma occurs_in_concat (sep item : string) (items : list string) :
  In item items -> occurs_in item (String.concat sep items).
Proof.
  induction items as [|x items IH]; [contradiction|].
  intros [->|Hin].
  - destruct items as [|y items].
    + exists "", "". cbn [String.concat]. rewrite append_nil_r. reflexivity.
    + exists "", (sep +:+ String.concat sep (y :: items)). reflexivity.
  - destruct items as [|y items]; [contradiction|].
    destruct (IH Hin) as (before & after & Heq).
    exists (x +:+ sep +:+ before), after.
    change (String.concat sep (x :: y :: items))
      with (x +:+ sep +:+ String.concat sep (y :: items)).
    rewrite Heq, !append_assoc. reflexivity.
Qed.

Lemma occurs_in_wrapped (t s before after : string) :
  occurs_in t s -> occurs_in t (before +:+ s +:+ after).
Proof.
  intros (b & a & ->). exists (before +:+ b), (a +:+ after).
  rewrite !append_assoc. reflexivity.
Qed.

Lemma item_occurs_in_repr (repr : interpreter) (d : dict) (k : string) (v : json) :
  In (k, v) d ->
  occurs_in (item_repr repr k (py_repr repr v)) (py_repr repr (JObj d)).
Proof.
  intros Hin. cbn [py_repr]. apply occurs_in_wrapped, occurs_in_concat.
  apply (in_map (fun kv => match kv with (k, v) => item_repr repr k (py_repr repr v) end)
           d (k, v) Hin).
Qed.

(** C5.  When the answer of the identity provider has no [access_token],
    the authenticator raises the error whose message is the fixed prefix
    followed by the answer as the interpreter prints a dictionary: every
    key of the answer and the value under it occur in the message, each
    in its [repr()] form.  The program stops with that error and the
    network is left as it was: no GET was issued.  When the answer has
    the field, the authenticator returns its value. *)
Theorem authentication (repr : interpreter) (args : arguments) (w : world) :
  (dict_lookup "access_token" (provider_reply args w) = None ->
   get_access_token repr (tenant_id args) (client_id args) (client_secret args) w
   = (inl (Exception ("Failed to acquire token: "
                      +:+ py_repr repr (JObj (provider_reply args w)))), w) /\
   (forall k v,
      In (k, v) (provider_reply args w) ->
      occurs_in (str_repr repr k +:+ ": " +:+ py_repr repr v)
        ("Failed to acquire token: " +:+ py_repr repr (JObj (provider_reply args w)))) /\
   exists w',
     main repr args w
     = (inl (Exception ("Failed to acquire token: "
                        +:+ py_repr repr (JObj (provider_reply args w)))), w') /\
     network w' = network w /\ files w' = files w) /\
  (forall token,
     dict_lookup "access_token" (provider_reply args w) = Some token ->
     get_access_token repr (tenant_id args) (client_id args) (client_secret args) w
     = (inr token, w)).
Proof.
  split.
  - intros H. split; [|split].
    + rewrite get_access_token_reply, H. reflexivity.
    + intros k v Hin.
      pose proof (occurs_in_wrapped _ _ "Failed to acquire token: " ""
                    (item_occurs_in_repr repr _ k v Hin)) as Hocc.
      rewrite append_nil_r in Hocc. exact Hocc.
    + rewrite main_after_token, get_access_token_reply.
      change (provider_reply args (snd (print "🔐 Getting access token..." w)))
        with (provider_reply args w).
      rewrite H. eexists. split; [reflexivity|]. split; reflexivity.
  - intros token H. rewrite get_access_token_reply, H. reflexivity.
Qed.

Lemma authentication_witness :
  (exists w',
     main no_repr example_args
       (example_world [("error", JStr "invalid_client"); ("error_codes", JArr [JInt 7000215])]
          [page_one; page_two])
     = (inl (Exception
               "Failed to acquire token: {'error': 'invalid_client', 'error_codes': [7000215]}"),
        w') /\
     network w' = {| pending := [page_one; page_two]; sent := [] |} /\
     files w' = {["report.csv" := "old"]}) /\
  occurs_in "'error': 'invalid_client'"
    "Failed to acquire token: {'error': 'invalid_client', 'error_codes': [7000215]}" /\
  get_access_token no_repr "tenant" "client" "secret"
    (example_world [("access_token", JStr "eyJ0")] [])
  = (inr (JStr "eyJ0"), example_world [("access_token", JStr "eyJ0")] []).
Proof.
  split; [|split].
  - exact (proj2 (proj2 (proj1 (authentication no_repr example_args
             (example_world [("error", JStr "invalid_client");
                             ("error_codes", JArr [JInt 7000215])] [page_one; page_two]))
             eq_refl))).
  - exact (proj1 (proj2 (proj1 (authentication no_repr example_args
             (example_world [("error", JStr "invalid_client");
                             ("error_codes", JArr [JInt 7000215])] [page_one; page_two]))
             eq_refl)) "error" (JStr "invalid_client") (or_introl eq_refl)).
  - exact (proj2 (authentication no_repr example_args
             (example_world [("access_token", JStr "eyJ0")] [])) (JStr "eyJ0") eq_refl).
Defined.

Lemma fetch_keeps_files (repr : interpreter) (token : json) (w : world) :
  files (snd (fetch repr token w)) = files w.
Proof.
  unfold fetch. destruct (fetch_users_with_licenses repr token (network w)). reflexivity.
Qed.

(** C6.  When the fetch fails, at the first page or at a later one, the
    program stops with the error of the fetch: the records of the pages
    read so far are not returned, the exporter is not reached, and the
    files are what they were before the run. *)
Theorem failed_fetch_writes_nothing (repr : interpreter) (args : arguments)
    (w : world) (token : json) (e : exn) :
  dict_lookup "access_token" (provider_reply args w) = Some token ->
  fst (fetch_users_with_licenses repr token (network w)) = inl e ->
  exists w', main repr args w = (inl e, w') /\ files w' = files w.
Proof.
  intros Htoken Hfetch.
  rewrite main_after_token, get_access_token_reply.
  change (provider_reply args (snd (print "🔐 Getting access token..." w)))
    with (provider_reply args w).
  rewrite Htoken. unfold fetch, print. cbn [snd network].
  destruct (fetch_users_with_licenses repr token (network w)) as [res n].
  cbn [fst] in Hfetch. subst res. eexists. split; reflexivity.
Qed.

Lemma failed_fetch_writes_nothing_witness :
  fst (fetch_users_with_licenses no_repr (JStr "t")
         {| pending := [page_one; forbidden]; sent := [] |})
  = inl (Exception "Graph API error: Forbidden") /\
  exists w',
    main no_repr example_args
      (example_world [("access_token", JStr "t")] [page_one; forbidden])
    = (inl (Exception "Graph API error: Forbidden"), w') /\
    files w' = {["report.csv" := "old"]}.
Proof.
  split; [reflexivity|].
  exact (failed_fetch_writes_nothing no_repr example_args
           (example_world [("access_token", JStr "t")] [page_one; forbidden])
           (JStr "t") _ eq_refl eq_refl).
Defined.

(** ** Writing the rows and reading them back *)

Lemma special_cases (c : ascii) :
  special c = false ->
  is_newline c = false /\ Ascii.eqb c comma = false /\ Ascii.eqb c dquote = false.
Proof.
  unfold special. intros H.
  destruct (Ascii.eqb c comma), (Ascii.eqb c dquote), (is_newline c);
    try discriminate H; repeat split.
Qed.

Lemma line_ends_inside (c d : ascii) (rest : string) :
  is_newline c = false -> line_ends c (String d rest) = false.
Proof.
  unfold is_newline, line_ends. intros H.
  destruct (Ascii.eqb c CR), (Ascii.eqb c LF); try discriminate H; reflexivity.
Qed.

Lemma line_ends_before (c : ascii) (s : string) (d : ascii) (rest : string) :
  is_newline c = false -> line_ends c (s +:+ String d rest) = false.
Proof.
  intros H. destruct s as [|a s]; [apply line_ends_inside; exact H|].
  rewrite append_cons. apply line_ends_inside; exact H.
Qed.

Lemma read_rows_cons (r : reader) (rows : list (list string)) (c : ascii) (rest : string) :
  read_rows r rows (String c rest)
  = match parse_process_char r c with
    | None => None
    | Some r1 =>
        if line_ends c rest then
          let r2 := parse_process_eol r1 in
          if at_record_start r2 then read_rows parse_reset (rows ++ [fields r2]) rest
          else read_rows r2 rows rest
        else read_rows r1 rows rest
    end.
Proof. reflexivity. Qed.

(** Inside a line a character only moves the machine. *)
Lemma read_inside (r r1 : reader) (rows : list (list string)) (c : ascii) (rest : string) :
  parse_process_char r c = Some r1 ->
  line_ends c rest = false ->
  read_rows r rows (String c rest) = read_rows r1 rows rest.
Proof. intros H1 H2. rewrite read_rows_cons, H1, H2. reflexivity. Qed.

(** Inside quotes the end of a line changes nothing. *)
Lemma read_quoted (r r1 : reader) (rows : list (list string)) (c : ascii) (rest : string) :
  parse_process_char r c = Some r1 ->
  state r1 = IN_QUOTED_FIELD ->
  read_rows r rows (String c rest) = read_rows r1 rows rest.
Proof.
  intros H1 H2. rewrite read_rows_cons, H1.
  destruct (line_ends c rest); [|reflexivity].
  unfold parse_process_eol, at_record_start. rewrite H2. cbv zeta. rewrite H2. reflexivity.
Qed.

Lemma read_quoted_body (f : string) :
  forall buf fs rows rest,
    read_rows (config IN_QUOTED_FIELD buf fs) rows (double_quotes f +:+ String dquote rest)
    = read_rows (config IN_QUOTED_FIELD (buf +:+ f) fs) rows (String dquote rest).
Proof.
  induction f as [|c f IH]; intros buf fs rows rest.
  - rewrite append_nil_r. reflexivity.
  - cbn [double_quotes]. destruct (Ascii.eqb c dquote) eqn:E.
    + apply Ascii.eqb_eq in E. subst c. rewrite !append_cons.
      rewrite (read_inside _ (config QUOTE_IN_QUOTED_FIELD buf fs)); [|reflexivity..].
      rewrite (read_quoted _ (config IN_QUOTED_FIELD (buf +:+ String dquote "") fs));
        [|reflexivity..].
      rewrite IH, append_snoc. reflexivity.
    + rewrite append_cons.
      rewrite (read_quoted _ (config IN_QUOTED_FIELD (buf +:+ String c "") fs)).
      * rewrite IH, append_snoc. reflexivity.
      * unfold parse_process_char. cbn [state config]. rewrite E. reflexivity.
      * reflexivity.
Qed.

Lemma read_plain_body (f : string) :
  forall buf fs rows d rest,
    has_special f = false ->
    read_rows (config IN_FIELD buf fs) rows (f +:+ String d rest)
    = read_rows (config IN_FIELD (buf +:+ f) fs) rows (String d rest).
Proof.
  induction f as [|c f IH]; intros buf fs rows d rest H.
  - rewrite append_nil_r. reflexivity.
  - cbn [has_special] in H. apply orb_false_elim in H as [Hc Hf].
    destruct (special_cases c Hc) as (Hn & Hcomma & Hq).
    rewrite append_cons.
    rewrite (read_inside _ (config IN_FIELD (buf +:+ String c "") fs)).
    + rewrite (IH _ _ _ _ _ Hf), append_snoc. reflexivity.
    + unfold parse_process_char. cbn [state config]. rewrite Hn, Hcomma. reflexivity.
    + apply line_ends_before; exact Hn.
Qed.

Lemma read_field (f : string) (st : parser_state) (fs : list string)
    (rows : list (list string)) (d : ascii) (rest : string) :
  st = START_RECORD \/ st = START_FIELD ->
  exists r,
    read_rows (config st "" fs) rows (csv_field f +:+ String d rest)
    = read_rows r rows (String d rest) /\
    fields r = fs /\ field_read st f r.
Proof.
  intros Hst. unfold csv_field. destruct (has_special f) eqn:Hf.
  - exists (config QUOTE_IN_QUOTED_FIELD f fs).
    rewrite append_cons, append_assoc, append_cons.
    rewrite (read_quoted _ (config IN_QUOTED_FIELD "" fs));
      [|destruct Hst; subst st; reflexivity|reflexivity].
    rewrite read_quoted_body.
    rewrite (read_inside _ (config QUOTE_IN_QUOTED_FIELD f fs)); [|reflexivity..].
    repeat split. right. left. reflexivity.
  - destruct f as [|c f].
    + exists (config st "" fs). repeat split. right. right.
      unfold csv_field. split; reflexivity.
    + cbn [has_special] in Hf. apply orb_false_elim in Hf as [Hc Hf].
      destruct (special_cases c Hc) as (Hn & Hcomma & Hq).
      exists (config IN_FIELD (String c f) fs). rewrite append_cons.
      rewrite (read_inside _ (config IN_FIELD (String c "") fs)).
      * rewrite (read_plain_body f _ _ _ _ _ Hf). repeat split. left. reflexivity.
      * unfold parse_process_char, start_field.
        destruct Hst; subst st; cbn [state config]; rewrite Hn, ?Hcomma, ?Hq; reflexivity.
      * apply line_ends_before; exact Hn.
Qed.

Lemma read_comma (st : parser_state) (f : string) (r : reader)
    (rows : list (list string)) (d : ascii) (rest : string) :
  st = START_RECORD \/ st = START_FIELD ->
  field_read st f r ->
  read_rows r rows (String comma (String d rest))
  = read_rows (config START_FIELD "" (fields r ++ [f])) rows (String d rest).
Proof.
  intros Hst [Hf Hs]. apply read_inside; [|reflexivity].
  destruct r as [s b fs]. cbn [field state fields] in *. subst b.
  unfold parse_process_char. cbn [state].
  destruct Hs as [->|[->|[-> _]]]; [reflexivity..|].
  destruct Hst; subst st; reflexivity.
Qed.

Lemma read_crlf (st : parser_state) (f : string) (r : reader)
    (rows : list (list string)) (rest : string) :
  st = START_FIELD \/ (st = START_RECORD /\ csv_field f <> "") ->
  field_read st f r ->
  read_rows r rows (CRLF +:+ rest)
  = read_rows parse_reset (rows ++ [fields r ++ [f]]) rest.
Proof.
  intros Hst [Hf Hs]. unfold CRLF. rewrite !append_cons.
  destruct r as [s b fs]. cbn [field state fields] in *. subst b.
  assert (Hcr : parse_process_char {| state := s; field := f; fields := fs |} CR
                = Some (config EAT_CRNL "" (fs ++ [f]))).
  { unfold parse_process_char. cbn [state].
    destruct Hs as [->|[->|[-> He]]]; [reflexivity..|].
    destruct Hst as [->|[_ Hne]]; [reflexivity|contradiction]. }
  rewrite (read_inside _ _ _ _ _ Hcr); [|reflexivity].
  rewrite read_rows_cons. cbn [parse_process_char state config is_newline].
  change (Ascii.eqb LF CR || Ascii.eqb LF LF) with true. cbv iota.
  assert (Hend : line_ends LF ("" +:+ rest) = true) by (destruct rest; reflexivity).
  rewrite Hend. reflexivity.
Qed.

Lemma join_fields_cons2 (f g : string) (fs : list string) :
  join_fields (f :: g :: fs) = csv_field f +:+ String comma (join_fields (g :: fs)).
Proof. reflexivity. Qed.

Lemma append_cons_inv (s : string) (d : ascii) (t : string) :
  exists c u, s +:+ String d t = String c u.
Proof. destruct s as [|a s]; [exists d, t|exists a, (s +:+ String d t)]; reflexivity. Qed.

Lemma read_fields (fs : list string) :
  fs <> [] ->
  forall st acc rows rest,
    st = START_FIELD \/ (st = START_RECORD /\ join_fields fs <> "") ->
    read_rows (config st "" acc) rows (join_fields fs +:+ CRLF +:+ rest)
    = read_rows parse_reset (rows ++ [acc ++ fs]) rest.
Proof.
  induction fs as [|f fs IH]; [contradiction|]. intros _ st acc rows rest Hst.
  destruct fs as [|g fs].
  - cbn [join_fields] in *. unfold CRLF at 1. rewrite append_cons.
    destruct (read_field f st acc rows CR (String LF "" +:+ rest)) as (r & Hr & Hfs & Hread).
    { destruct Hst as [->|[-> _]]; [right|left]; reflexivity. }
    rewrite Hr. change (String CR (String LF "" +:+ rest)) with (CRLF +:+ rest).
    rewrite (read_crlf st f r rows rest Hst Hread), Hfs. reflexivity.
  - rewrite join_fields_cons2, append_assoc, append_cons.
    destruct (append_cons_inv (join_fields (g :: fs)) CR (String LF "" +:+ rest))
      as (d & u & Hdu).
    change (join_fields (g :: fs) +:+ CRLF +:+ rest)
      with (join_fields (g :: fs) +:+ String CR (String LF "" +:+ rest)).
    assert (Hst' : st = START_RECORD \/ st = START_FIELD).
    { destruct Hst as [->|[-> _]]; [right|left]; reflexivity. }
    destruct (read_field f st acc rows comma
                (join_fields (g :: fs) +:+ String CR (String LF "" +:+ rest)))
      as (r & Hr & Hfs & Hread); [exact Hst'|].
    rewrite Hr, Hdu, (read_comma st f r rows d u Hst' Hread), <- Hdu, Hfs.
    change (join_fields (g :: fs) +:+ String CR (String LF "" +:+ rest))
      with (join_fields (g :: fs) +:+ CRLF +:+ rest).
    rewrite IH; [|discriminate|left; reflexivity].
    rewrite <- app_assoc. reflexivity.
Qed.

Lemma csv_field_empty (f : string) : csv_field f = "" -> f = "".
Proof.
  unfold csv_field. destruct (has_special f); [discriminate|trivial].
Qed.

Lemma join_fields_empty (fs : list string) :
  fs <> [] -> join_fields fs = "" -> fs = [""].
Proof.
  destruct fs as [|f [|g fs]]; [contradiction| |].
  - intros _ H. cbn [join_fields] in H. rewrite (csv_field_empty f H). reflexivity.
  - intros _ H. rewrite join_fields_cons2 in H.
    destruct (append_cons_inv (csv_field f) comma (join_fields (g :: fs))) as (c & u & E).
    rewrite E in H. discriminate H.
Qed.

(** The reader takes the text of one row back to its fields. *)
Lemma read_csv_row (fs : list string) (rows : list (list string)) (rest : string) :
  read_rows parse_reset rows (csv_row fs +:+ rest)
  = read_rows parse_reset (rows ++ [fs]) rest.
Proof.
  unfold csv_row. rewrite append_assoc.
  destruct fs as [|f fs].
  - cbn [csv_record join_fields]. destruct rest; reflexivity.
  - destruct (join_fields (f :: fs)) as [|c u] eqn:Hj.
    + rewrite (join_fields_empty (f :: fs)) by (discriminate || exact Hj).
      unfold csv_record. cbn [join_fields]. destruct rest; reflexivity.
    + unfold csv_record. rewrite Hj, <- Hj.
      apply (read_fields (f :: fs)); [discriminate|].
      right. split; [reflexivity|]. rewrite Hj. discriminate.
Qed.

Lemma read_csv_document (rows done : list (list string)) :
  read_rows parse_reset done (csv_document rows) = Some (done ++ rows).
Proof.
  revert done. induction rows as [|fs rows IH]; intros done.
  - cbn [csv_document read_rows]. rewrite app_nil_r. reflexivity.
  - cbn [csv_document]. rewrite read_csv_row, IH, <- app_assoc. reflexivity.
Qed.

(** Whatever the rows hold, the reader gives them back. *)
Lemma csv_reader_document (rows : list (list string)) :
  csv_reader (csv_document rows) = Some rows.
Proof. apply (read_csv_document rows []). Qed.

Lemma writerows_document (repr : interpreter) (users : list user_row) :
  writerows repr users = csv_document (map (row_texts repr) users).
Proof.
  induction users as [|u users IH]; [reflexivity|].
  cbn [writerows map csv_document]. rewrite IH. reflexivity.
Qed.

Lemma exported_document (repr : interpreter) (users : list user_row) :
  writeheader repr +:+ writerows repr users
  = csv_document (fieldnames :: map (row_texts repr) users).
Proof. rewrite writerows_document. reflexivity. Qed.

Lemma writeheader_line (repr : interpreter) : writeheader repr = header_line.
Proof. reflexivity. Qed.

Lemma writerow_line (repr : interpreter) (u : user_row) :
  writerow repr (row_values u) = row_line repr u.
Proof.
  unfold writerow, row_line, csv_row, csv_record, row_values.
  cbn [map join_fields String.concat].
  destruct (append_cons_inv (csv_field (csv_text repr (UserPrincipalName u))) comma
              (csv_field (csv_text repr (DisplayName u))
               +:+ String comma
                     (csv_field (csv_text repr (AccountEnabled u))
                      +:+ String comma (csv_field (csv_text repr (JStr (AssignedLicenses u)))))))
    as (c & t & E).
  rewrite E, <- E. reflexivity.
Qed.

Lemma writerows_lines (repr : interpreter) (users : list user_row) :
  writerows repr users = String.concat "" (map (row_line repr) users).
Proof.
  induction users as [|u users IH]; [reflexivity|].
  cbn [writerows map]. rewrite writerow_line, IH.
  destruct users as [|v users]; [apply append_nil_r|reflexivity].
Qed.

Lemma forallb_over_map {A B : Type} (p : B -> bool) (f : A -> B) (l : list A) :
  forallb p (map f l) = forallb (fun a => p (f a)) l.
Proof. induction l as [|a l IH]; [reflexivity|]. cbn [map forallb]. rewrite IH. reflexivity. Qed.

Lemma write_lines_encodable (lines : list string) (written : string) :
  forallb (fun line => negb (has_surrogate line)) lines = true ->
  write_lines lines written = (inr tt, written +:+ String.concat "" lines).
Proof.
  revert written. induction lines as [|line lines IH]; intros written; cbn [forallb write_lines].
  - intros _. rewrite append_nil_r. reflexivity.
  - intros [Hl Hs]%andb_prop. apply negb_true_iff in Hl. rewrite Hl, (IH _ Hs), append_assoc.
    destruct lines; [rewrite append_nil_r|]; reflexivity.
Qed.

Lemma write_lines_stops (good : list string) (bad : string) (rest : list string)
    (written : string) :
  forallb (fun line => negb (has_surrogate line)) good = true ->
  has_surrogate bad = true ->
  write_lines (good ++ bad :: rest) written
  = (inl UnicodeEncodeError, written +:+ String.concat "" good).
Proof.
  revert written. induction good as [|line good IH]; intros written; cbn [forallb app write_lines].
  - intros _ ->. rewrite append_nil_r. reflexivity.
  - intros [Hl Hs]%andb_prop Hbad. apply negb_true_iff in Hl.
    rewrite Hl, (IH _ Hs Hbad), append_assoc.
    destruct good; [rewrite append_nil_r|]; reflexivity.
Qed.

Lemma report_lines_rows (repr : interpreter) (users : list user_row) :
  report_lines repr users = header_line :: map (row_line repr) users.
Proof.
  unfold report_lines. f_equal. apply map_ext. intros u. apply writerow_line.
Qed.

Lemma concat_header_rows (lines : list string) :
  String.concat "" (header_line :: lines) = header_line +:+ String.concat "" lines.
Proof. destruct lines; [rewrite append_nil_r|]; reflexivity. Qed.

(** C7 (as stated).  A record whose display name holds a lone surrogate,
    which a JSON text can carry, cannot be encoded: the exporter raises
    the encoding error, and the file, opened and truncated by then, is
    left with the header line alone. *)
Lemma surrogate_record_not_written :
  ~ (forall (repr : interpreter) (users : list user_row) (output_file : string) (w : world),
       denied w output_file = false ->
       exists w',
         export_to_csv repr users output_file w = (inr tt, w') /\
         files w' !! output_file
         = Some (header_line +:+ String.concat "" (map (row_line repr) users))).
Proof.
  intros H.
  destruct (H no_repr
              [ {| UserPrincipalName := JStr "ann@contoso.com";
                   DisplayName := JStr lone_surrogate;
                   AccountEnabled := JBool true; AssignedLicenses := "None" |} ]
              "report.csv" (example_world [] []) eq_refl) as (w' & Hrun & _).
  vm_compute in Hrun. discriminate Hrun.
Qed.

(** C7 (amended).  When the output path can be opened and no line to be
    written holds a lone surrogate, the exporter leaves at that path,
    whatever was there before, the line of the four column names in their
    fixed order followed by one line for each record, in the order of the
    records, each line ended by CR LF; no other file is touched, and the
    file reads back as one row more than there are records. *)
Theorem export_writes_report (repr : interpreter) (users : list user_row)
    (output_file : string) (w : world) :
  denied w output_file = false ->
  forallb (fun u => negb (has_surrogate (row_line repr u))) users = true ->
  exists w',
    export_to_csv repr users output_file w = (inr tt, w') /\
    files w' !! output_file
    = Some (header_line +:+ String.concat "" (map (row_line repr) users)) /\
    (forall p, p <> output_file -> files w' !! p = files w !! p) /\
    length <$> csv_reader (header_line +:+ String.concat "" (map (row_line repr) users))
    = Some (S (length users)).
Proof.
  intros H Henc. unfold export_to_csv. rewrite H, report_lines_rows.
  rewrite write_lines_encodable, concat_header_rows
    by (cbn [forallb]; rewrite forallb_over_map; exact Henc).
  eexists. split; [reflexivity|]. cbn [files].
  split; [apply lookup_insert_eq|]. split.
  - intros p Hp. apply lookup_insert_ne. congruence.
  - rewrite <- writerows_lines, <- (writeheader_line repr).
    rewrite exported_document, csv_reader_document. cbn [fmap option_fmap option_map length].
    rewrite length_map. reflexivity.
Qed.

Lemma export_writes_report_witness :
  exists w',
    export_to_csv no_repr
      [ {| UserPrincipalName := JStr "jane@contoso.com"; DisplayName := JStr "Doe, Jane";
           AccountEnabled := JBool true; AssignedLicenses := "A, B" |} ]
      "report.csv" (example_world [] [])
    = (inr tt, w') /\
    files w' !! "report.csv"
    = Some ("UserPrincipalName,DisplayName,AccountEnabled,AssignedLicenses" +:+ CRLF
            +:+ "jane@contoso.com," +:+ String dquote "Doe, Jane" +:+ String dquote ",True,"
            +:+ String dquote "A, B" +:+ String dquote CRLF).
Proof.
  destruct (export_writes_report no_repr
              [ {| UserPrincipalName := JStr "jane@contoso.com"; DisplayName := JStr "Doe, Jane";
                   AccountEnabled := JBool true; AssignedLicenses := "A, B" |} ]
              "report.csv" (example_world [] []) eq_refl eq_refl) as (w' & Hrun & Hfile & _).
  exists w'. split; [exact Hrun|exact Hfile].
Defined.


Example true_read_back_as_text :
  (let* users := fst (fetch_users_with_licenses no_repr (JStr "t")
                        {| pending := [page_two]; sent := [] |}) in
   inr (map AccountEnabled users,
        csv_reader (writeheader no_repr +:+ writerows no_repr users)))
  = inr ([JBool true],
         Some [fieldnames; ["jane@contoso.com"; "Doe, Jane"; "True"; "A, B"]]).
Proof. reflexivity. Qed.


(** * Further properties of the script *)

(** ** What a successful fetch has read *)

Lemma collect_not_object (v : json) (items : list json) :
  is_object v = false -> collect user_record (v :: items) = inl AttributeError.
Proof. destruct v; try discriminate; reflexivity. Qed.

Lemma iter_value_users (d : dict) (items : list json) (rows : list user_row) :
  py_iter (dict_get d "value" (JArr [])) = inr items ->
  collect user_record items = inr rows ->
  collect user_record
    (match dict_lookup "value" d with Some (JArr l) => l | _ => [] end) = inr rows.
Proof.
  unfold dict_get. destruct (dict_lookup "value" d) as [[| | | |s|l|kv]|]; cbn [py_iter];
    try discriminate.
  - intros [= <-]. destruct s as [|c s]; [trivial|].
    cbn [chars_of]. rewrite collect_not_object by reflexivity. discriminate.
  - intros [= <-]. trivial.
  - intros [= <-]. destruct kv as [|[k v] kv]; [trivial|].
    cbn [map fst]. rewrite collect_not_object by reflexivity. discriminate.
  - intros [= <-]. trivial.
Qed.

Lemma page_step_inv (r : response) (users users' : list user_row) (next : json) :
  page_step r users = inr (users', next) ->
  status_code r = 200%Z /\
  exists rows,
    collect user_record (page_users r) = inr rows /\
    users' = users ++ rows /\ next = default JNull (cursor r).
Proof.
  unfold page_step, page_users, cursor, response_json.
  destruct (Z.eqb_spec (status_code r) 200) as [Hc|Hc]; cbn [negb]; [|discriminate].
  intros H. split; [exact Hc|].
  destruct (json_body r) as [[| | | | | |d]|]; try discriminate H.
  cbn [rbind py_get] in H.
  destruct (py_iter (dict_get d "value" (JArr []))) as [e|items] eqn:Hit;
    [discriminate H|]. cbn [rbind] in H.
  rewrite for_users_collect in H.
  destruct (collect user_record items) as [e|rows] eqn:Hrows; [discriminate H|].
  cbn [rbind] in H. injection H as <- <-.
  exists rows. split; [exact (iter_value_users d items rows Hit Hrows)|].
  split; [reflexivity|]. unfold dict_get.
  destruct (dict_lookup "@odata.nextLink" d); reflexivity.
Qed.

Lemma cursor_urls_cons (r r2 : response) (rs : list response) :
  cursor_urls (r :: r2 :: rs) = default JNull (cursor r) :: cursor_urls (r2 :: rs).
Proof. reflexivity. Qed.

Lemma while_url_success (h : list (string * string)) (todo : list response) :
  forall url users log res n',
    py_bool url = true ->
    while_url h url users todo log = (inr res, n') ->
    exists consumed rows,
      todo = consumed ++ pending n' /\ consumed <> [] /\
      Forall (fun r => status_code r = 200%Z) consumed /\
      collect user_record (flat_map page_users consumed) = inr rows /\
      res = users ++ rows /\
      sent n' = log ++ map (get_request h) (url :: cursor_urls consumed).
Proof.
  induction todo as [|r rest IH]; intros url users log res n' Hurl Hrun.
  - cbn [while_url] in Hrun. rewrite Hurl in Hrun. discriminate Hrun.
  - rewrite (while_url_cons _ _ _ _ _ _ Hurl) in Hrun.
    destruct (page_step r users) as [e|[users' next]] eqn:Hstep; [discriminate Hrun|].
    destruct (page_step_inv _ _ _ _ Hstep) as (Hc & rows1 & Hrows1 & -> & ->).
    destruct (py_bool (default JNull (cursor r))) eqn:Hnext.
    + destruct (IH _ _ _ _ _ Hnext Hrun)
        as (consumed & rows2 & -> & Hne & H200 & Hrows2 & -> & Hsent).
      exists (r :: consumed), (rows1 ++ rows2). repeat split.
      * discriminate.
      * constructor; assumption.
      * cbn [flat_map]. rewrite collect_app, Hrows1, Hrows2. reflexivity.
      * symmetry. apply app_assoc.
      * rewrite Hsent, <- app_assoc. destruct consumed as [|r2 rs]; [contradiction|].
        rewrite cursor_urls_cons. reflexivity.
    + rewrite (while_url_stop _ _ _ _ _ Hnext) in Hrun. injection Hrun as <- <-.
      exists [r], rows1. cbn [pending sent flat_map]. rewrite app_nil_r.
      repeat split; [discriminate|constructor; [exact Hc|constructor]|exact Hrows1].
Qed.

(** X1.  Whatever the endpoint delivers, when the fetch returns, it has
    read a non-empty run of the pending responses, all with status 200;
    the result is the records of the user objects of these pages, in
    order; and it has issued one GET for each of them, the first to the
    collection URL and every other to the cursor of the page before. *)
Theorem fetch_success_reads_pages (repr : interpreter) (token : json)
    (n n' : net) (users : list user_row) :
  fetch_users_with_licenses repr token n = (inr users, n') ->
  exists consumed,
    pending n = consumed ++ pending n' /\ consumed <> [] /\
    Forall (fun r => status_code r = 200%Z) consumed /\
    collect user_record (flat_map page_users consumed) = inr users /\
    sent n' = sent n
              ++ map (get_request (bearer repr token)) (JStr users_url :: cursor_urls consumed).
Proof.
  intros H.
  destruct (while_url_success (bearer repr token) (pending n) (JStr users_url) []
              (sent n) users n' eq_refl H)
    as (consumed & rows & Hp & Hne & H200 & Hrows & -> & Hsent).
  exists consumed. repeat split; assumption.
Qed.

Lemma fetch_success_reads_pages_witness :
  exists consumed,
    [page_one; page_two; forbidden] = consumed ++ [forbidden] /\ consumed <> [] /\
    Forall (fun r => status_code r = 200%Z) consumed /\
    collect user_record (flat_map page_users consumed)
    = inr [row_of "jane@contoso.com" "Doe, Jane" true "A, B";
           row_of "jane@contoso.com" "Doe, Jane" true "A, B";
           row_of "jane@contoso.com" "Doe, Jane" true "A, B"] /\
    [get_request [("Authorization", "Bearer t")] (JStr users_url);
     get_request [("Authorization", "Bearer t")]
       (JStr "https://graph.microsoft.com/v1.0/users?$skiptoken=X")]
    = [] ++ map (get_request (bearer no_repr (JStr "t"))) (JStr users_url :: cursor_urls consumed).
Proof.
  exact (fetch_success_reads_pages no_repr (JStr "t")
           {| pending := [page_one; page_two; forbidden]; sent := [] |}
           _ _ eq_refl).
Defined.

(** ** Where the error of a failed request comes from *)

Lemma while_url_exception (h : list (string * string)) (todo : list response) :
  forall url users log msg n',
    while_url h url users todo log = (inl (Exception msg), n') ->
    exists before r,
      todo = before ++ r :: pending n' /\
      Forall (fun r => status_code r = 200%Z) before /\
      status_code r <> 200%Z /\
      msg = "Graph API error: " +:+ text r /\
      length (sent n') = (length log + length before + 1)%nat.
Proof.
  induction todo as [|r rest IH]; intros url users log msg n' Hrun.
  - cbn [while_url] in Hrun. destruct (py_bool url); discriminate Hrun.
  - destruct (py_bool url) eqn:Hurl;
      [|rewrite (while_url_stop _ _ _ _ _ Hurl) in Hrun; discriminate Hrun].
    rewrite (while_url_cons _ _ _ _ _ _ Hurl) in Hrun.
    destruct (page_step r users) as [e|[users' next]] eqn:Hstep.
    + injection Hrun as -> <-.
      destruct (Z.eq_dec (status_code r) 200%Z) as [Hc|Hc].
      * apply (page_step_200 r users Hc) in Hstep. discriminate Hstep.
      * rewrite (page_step_not_200 r users Hc) in Hstep. injection Hstep as <-.
        exists [], r. cbn [pending sent app length]. rewrite length_app. cbn [length].
        repeat split; [constructor|exact Hc|lia].
    + destruct (page_step_inv _ _ _ _ Hstep) as (Hc & _).
      destruct (IH _ _ _ _ _ Hrun) as (before & r' & -> & H200 & Hne & -> & Hlen).
      exists (r :: before), r'. rewrite length_app in Hlen. cbn [length] in Hlen |- *.
      repeat split; [constructor; assumption|exact Hne|lia].
Qed.

(** X2.  When the fetch ends with the error raised by [raise Exception],
    some pending response has a status other than 200, every response
    before it has status 200, the message is the fixed prefix followed by
    the body of that response as it is, one GET was issued for each
    response read, and the responses after it are still pending: nothing
    was retried. *)
Theorem fetch_exception_origin (repr : interpreter) (token : json)
    (n n' : net) (msg : string) :
  fetch_users_with_licenses repr token n = (inl (Exception msg), n') ->
  exists before r,
    pending n = before ++ r :: pending n' /\
    Forall (fun r => status_code r = 200%Z) before /\
    status_code r <> 200%Z /\
    msg = "Graph API error: " +:+ text r /\
    length (sent n') = (length (sent n) + length before + 1)%nat.
Proof. apply while_url_exception. Qed.

Lemma fetch_exception_origin_witness :
  exists before r,
    [page_one; forbidden; page_two] = before ++ r :: [page_two] /\
    Forall (fun r => status_code r = 200%Z) before /\
    status_code r <> 200%Z /\
    "Graph API error: Forbidden" = "Graph API error: " +:+ text r /\
    2%nat = (0 + length before + 1)%nat.
Proof.
  exact (fetch_exception_origin no_repr (JStr "t")
           {| pending := [page_one; forbidden; page_two]; sent := [] |} _ _ eq_refl).
Defined.

Lemma chained_cons (r : response) (rs : list response) :
  chained (r :: rs) = true ->
  page_shape r = true /\ (exists v, cursor r = Some v /\ py_bool v = true) /\
  chained rs = true.
Proof.
  unfold chained. cbn [forallb]. intros [[Hp Hc]%andb_prop Hrs]%andb_prop.
  repeat split; [exact Hp| |exact Hrs].
  unfold has_cursor in Hc. destruct (cursor r) as [v|] eqn:Hcur; [|discriminate Hc].
  exists v. split; [reflexivity|]. apply is_url_true.
  unfold page_shape in Hp. rewrite Hcur in Hp. apply andb_prop in Hp. tauto.
Qed.

Lemma while_url_chained (h : list (string * string)) (rs : list response) :
  chained rs = true ->
  forall url users log todo,
    py_bool url = true ->
    exists rows last,
      collect user_record (flat_map page_users rs) = inr rows /\
      py_bool last = true /\
      url :: map (fun r => default JNull (cursor r)) rs
      = removelast (url :: map (fun r => default JNull (cursor r)) rs) ++ [last] /\
      while_url h url users (rs ++ todo) log
      = while_url h last (users ++ rows) todo
          (log ++ map (get_request h)
                    (removelast (url :: map (fun r => default JNull (cursor r)) rs))).
Proof.
  induction rs as [|r rs IH]; intros Hch url users log todo Hurl.
  - exists [], url. cbn [flat_map collect map removelast app].
    rewrite !app_nil_r. repeat split. exact Hurl.
  - destruct (chained_cons r rs Hch) as (Hp & (v & Hcur & Hv) & Hrs).
    destruct (page_step_shape r users Hp) as [rows1 [Hrows1 Hstep]].
    destruct (IH Hrs v (users ++ rows1) (log ++ [get_request h url]) todo Hv)
      as (rows2 & last & Hrows2 & Hlast & Hsplit & Hrun).
    exists (rows1 ++ rows2), last.
    cbn [flat_map]. rewrite collect_app, Hrows1, Hrows2. cbn [rbind map].
    rewrite Hcur in *. cbn [default from_option id] in *.
    change ((r :: rs) ++ todo) with (r :: (rs ++ todo)).
    rewrite (while_url_cons _ _ _ _ _ _ Hurl), Hstep, Hrun.
    change (removelast (url :: v :: map (fun r => default JNull (cursor r)) rs))
      with (url :: removelast (v :: map (fun r => default JNull (cursor r)) rs)).
    repeat split.
    + exact Hlast.
    + cbn [app]. f_equal. exact Hsplit.
    + rewrite <- !app_assoc. reflexivity.
Qed.

(** X3.  When the endpoint delivers k pages that each carry a cursor and
    then a response whose status is not 200, the fetch raises the error
    with the body of that response: the records of the k pages are not
    returned, k + 1 GETs have been issued and what the endpoint would
    deliver next is left unread. *)
Theorem fetch_fails_mid_pagination (repr : interpreter) (token : json)
    (rs : list response) (r : response) (rest : list response) (log : list request) :
  chained rs = true ->
  status_code r <> 200%Z ->
  exists n',
    fetch_users_with_licenses repr token {| pending := rs ++ r :: rest; sent := log |}
    = (inl (Exception ("Graph API error: " +:+ text r)), n') /\
    pending n' = rest /\
    sent n' = log ++ map (get_request (bearer repr token))
                       (JStr users_url :: map (fun r => default JNull (cursor r)) rs).
Proof.
  intros Hch Hc. unfold fetch_users_with_licenses. cbn [pending sent].
  destruct (while_url_chained (bearer repr token) rs Hch (JStr users_url) [] log
              (r :: rest) eq_refl) as (rows & last & _ & Hlast & Hsplit & Hrun).
  rewrite Hrun, (while_url_cons _ _ _ _ _ _ Hlast), (page_step_not_200 _ _ Hc).
  eexists. split; [reflexivity|]. cbn [pending sent]. split; [reflexivity|].
  rewrite <- app_assoc. f_equal. rewrite Hsplit at 2. rewrite map_app. reflexivity.
Qed.

Lemma fetch_fails_mid_pagination_witness :
  exists n',
    fetch_users_with_licenses no_repr (JStr "t")
      {| pending := [page_one] ++ forbidden :: [page_two]; sent := [] |}
    = (inl (Exception "Graph API error: Forbidden"), n') /\
    pending n' = [page_two] /\
    sent n' = [get_request [("Authorization", "Bearer t")] (JStr users_url);
               get_request [("Authorization", "Bearer t")]
                 (JStr "https://graph.microsoft.com/v1.0/users?$skiptoken=X")].
Proof.
  refine (fetch_fails_mid_pagination no_repr (JStr "t") [page_one] forbidden [page_two] []
            eq_refl _).
  discriminate.
Defined.

(** ** The test on the cursor *)

Lemma page_step_records (r : response) (users : list user_row) :
  records_shape r = true ->
  exists rows,
    collect user_record (page_users r) = inr rows /\
    page_step r users = inr (users ++ rows, default JNull (cursor r)).
Proof.
  unfold records_shape, page_step, page_users, cursor, response_json.
  intros [Hc Hv]%andb_prop. rewrite Hc. cbn [negb].
  destruct (json_body r) as [[| | | | | |d]|]; try discriminate Hv.
  cbn [rbind py_get]. unfold dict_get.
  destruct (dict_lookup "value" d) as [[| | | | |items|]|]; try discriminate Hv.
  - cbn [py_iter rbind]. rewrite for_users_collect.
    destruct (collect_complete_users items Hv) as [rows Hrows].
    exists rows. rewrite Hrows. cbn [rbind].
    destruct (dict_lookup "@odata.nextLink" d); split; reflexivity.
  - exists []. cbn [py_iter rbind for_users]. rewrite app_nil_r.
    destruct (dict_lookup "@odata.nextLink" d); split; reflexivity.
Qed.

(** X4.  The loop tests the truth value of the cursor, not its presence:
    after a page whose [@odata.nextLink] is there but is the empty string,
    null, zero, false or an empty container, the fetch returns the
    records read so far and the responses that remain are never
    requested. *)
Theorem falsy_cursor_ends_fetch (repr : interpreter) (token : json)
    (r : response) (rest : list response) (log : list request) (v : json) :
  records_shape r = true ->
  cursor r = Some v ->
  py_bool v = false ->
  exists rows,
    collect user_record (page_users r) = inr rows /\
    fetch_users_with_licenses repr token {| pending := r :: rest; sent := log |}
    = (inr rows,
       {| pending := rest;
          sent := log ++ [get_request (bearer repr token) (JStr users_url)] |}).
Proof.
  intros Hr Hcur Hv. destruct (page_step_records r [] Hr) as [rows [Hrows Hstep]].
  exists rows. split; [exact Hrows|].
  unfold fetch_users_with_licenses. cbn [pending sent].
  rewrite (while_url_cons (bearer repr token) (JStr users_url) [] r rest log eq_refl).
  rewrite Hstep, Hcur. cbn [default from_option id]. apply (while_url_stop _ _ _ _ _ Hv).
Qed.

Lemma falsy_cursor_ends_fetch_witness :
  exists rows,
    collect user_record (page_users page_with_empty_cursor) = inr rows /\
    fetch_users_with_licenses no_repr (JStr "t")
      {| pending := [page_with_empty_cursor; page_two]; sent := [] |}
    = (inr rows,
       {| pending := [page_two];
          sent := [] ++ [get_request (bearer no_repr (JStr "t")) (JStr users_url)] |}).
Proof.
  exact (falsy_cursor_ends_fetch no_repr (JStr "t") page_with_empty_cursor [page_two] []
           (JStr "") eq_refl eq_refl eq_refl).
Defined.

(** ** The header of the requests *)

Lemma while_url_headers (h : list (string * string)) (todo : list response) :
  forall url users log,
  exists more,
    sent (snd (while_url h url users todo log)) = log ++ more /\
    Forall (fun q => req_headers q = h) more.
Proof.
  induction todo as [|r rest IH]; intros url users log.
  - cbn [while_url]. destruct (py_bool url); cbn [snd sent].
    + eexists. split; [reflexivity|]. repeat constructor.
    + exists []. rewrite app_nil_r. split; [reflexivity|constructor].
  - destruct (py_bool url) eqn:Hurl.
    + rewrite (while_url_cons _ _ _ _ _ _ Hurl).
      destruct (page_step r users) as [e|[users' next]].
      * eexists. split; [reflexivity|]. repeat constructor.
      * destruct (IH next users' (log ++ [get_request h url])) as (more & Hmore & Hall).
        exists (get_request h url :: more). rewrite Hmore, <- app_assoc.
        split; [reflexivity|]. constructor; [reflexivity|exact Hall].
    + rewrite (while_url_stop _ _ _ _ _ Hurl). exists []. cbn [snd sent].
      rewrite app_nil_r. split; [reflexivity|constructor].
Qed.

(** X5.  However the fetch ends, the requests issued before it are kept
    and every request it adds carries one header and no other, the
    authorization header made of the word Bearer and the text of the
    token: the token obtained at the start is used for every page. *)
Theorem fetch_requests_carry_token (repr : interpreter) (token : json) (n : net) :
  exists more,
    sent (snd (fetch_users_with_licenses repr token n)) = sent n ++ more /\
    Forall (fun q => req_headers q = [("Authorization", "Bearer " +:+ py_str repr token)])
      more.
Proof. apply while_url_headers. Qed.

(** ** The record of one user, on any value *)

Lemma collect_getitem_errors (entries : list json) (e : exn) :
  collect (fun lic => py_getitem lic "skuId") entries = inl e ->
  e = TypeError \/ e = KeyError "skuId".
Proof.
  induction entries as [|lic entries IH]; cbn [collect]; [discriminate|].
  destruct (py_getitem lic "skuId") as [e'|v] eqn:Hg; cbn [rbind].
  - intros [= <-]. unfold py_getitem in Hg.
    destruct lic; try (injection Hg as <-; left; reflexivity).
    destruct (dict_lookup "skuId" members); [discriminate Hg|].
    injection Hg as <-. right. reflexivity.
  - destruct (collect (fun lic => py_getitem lic "skuId") entries) as [e'|vs];
      cbn [rbind]; [|discriminate].
    intros [= <-]. apply IH. reflexivity.
Qed.

Lemma str_join_errors (sep : string) (items : list json) (e : exn) :
  str_join sep items = inl e -> e = TypeError.
Proof.
  induction items as [|v items IH]; [discriminate|].
  destruct v; try (intros [= <-]; reflexivity).
  cbn [str_join]. destruct items as [|w items]; [discriminate|].
  destruct (str_join sep (w :: items)) as [e'|t]; cbn [rbind]; [|discriminate].
  intros [= <-]. apply IH. reflexivity.
Qed.

(** X6.  On a value that is not an object the record construction raises
    the attribute error, and on an object it never does: there it can
    only raise the type error (licences that cannot be iterated or
    subscripted, an identifier that is not a string) or the key error
    for [skuId]. *)
Theorem user_record_errors (user : json) :
  (is_object user = false -> user_record user = inl AttributeError) /\
  (forall e, is_object user = true -> user_record user = inl e ->
             e = TypeError \/ e = KeyError "skuId").
Proof.
  split.
  - destruct user; try discriminate; reflexivity.
  - intros e Hobj. destruct user as [| | | | | |d]; try discriminate Hobj.
    rewrite user_record_object. unfold license_skus, py_get. cbn [rbind].
    destruct (py_iter (dict_get d "assignedLicenses" (JArr []))) as [e'|entries] eqn:Hit;
      cbn [rbind].
    + intros [= <-]. left.
      destruct (dict_get d "assignedLicenses" (JArr [])); cbn in Hit;
        congruence.
    + destruct (collect (fun lic => py_getitem lic "skuId") entries) as [e'|skus] eqn:Hc;
        cbn [rbind].
      * intros [= <-]. apply (collect_getitem_errors _ _ Hc).
      * unfold joined_licenses. destruct (py_bool (JArr skus)); cbn [rbind]; [|discriminate].
        destruct (str_join ", " skus) as [e'|lic] eqn:Hj; cbn [rbind]; [|discriminate].
        intros [= <-]. left. apply (str_join_errors _ _ _ Hj).
Qed.

Lemma user_record_errors_witness :
  user_record (JStr "jane") = inl AttributeError /\
  (KeyError "skuId" = TypeError \/ KeyError "skuId" = KeyError "skuId").
Proof.
  split.
  - exact (proj1 (user_record_errors (JStr "jane")) eq_refl).
  - exact (proj2 (user_record_errors (user_with_licenses [JObj []])) _ eq_refl eq_refl).
Defined.

Lemma str_join_all_strings (sep : string) (items : list json) (s : string) :
  str_join sep items = inr s -> Forall (fun v => exists t, v = JStr t) items.
Proof.
  revert s. induction items as [|v items IH]; intros s; [constructor|].
  destruct v; try discriminate. cbn [str_join].
  destruct items as [|w items].
  - intros _. repeat constructor. eexists. reflexivity.
  - destruct (str_join sep (w :: items)) as [e|t] eqn:Hj; [discriminate|].
    intros _. constructor; [eexists; reflexivity|]. apply (IH t). reflexivity.
Qed.

Lemma collect_sku_strings (entries skus : list json) :
  collect (fun lic => py_getitem lic "skuId") entries = inr skus ->
  Forall (fun v => exists t, v = JStr t) skus ->
  forallb sku_is_string entries = true.
Proof.
  revert skus. induction entries as [|lic entries IH]; intros skus; [reflexivity|].
  cbn [collect forallb].
  destruct (py_getitem lic "skuId") as [e|v] eqn:Hg; [discriminate|]. cbn [rbind].
  destruct (collect (fun lic => py_getitem lic "skuId") entries) as [e|vs];
    [discriminate|]. cbn [rbind].
  intros [= <-] Hall. inversion Hall as [|? ? [t ->] Hvs]; subst.
  rewrite (IH vs eq_refl Hvs), andb_true_r.
  unfold py_getitem in Hg. unfold sku_is_string.
  destruct lic; try discriminate Hg.
  destruct (dict_lookup "skuId" members); [|discriminate Hg].
  injection Hg as ->. reflexivity.
Qed.

Lemma sku_is_string_shape (entries : list json) :
  forallb sku_is_string entries = true ->
  forallb license_shape entries = true /\ forallb has_sku entries = true.
Proof.
  induction entries as [|lic entries IH]; [split; reflexivity|].
  cbn [forallb]. intros [Hl Hs]%andb_prop. destruct (IH Hs) as [-> ->].
  rewrite !andb_true_r. unfold sku_is_string, license_shape, has_sku, dict_contains in *.
  destruct lic; try discriminate Hl.
  destruct (dict_lookup "skuId" members) as [[]|]; try discriminate Hl. split; reflexivity.
Qed.

(** X7.  On a user object whose [assignedLicenses] is an array, the
    record is built if and only if every entry of the array is an object
    holding a string under [skuId]: an entry that is not an object, that
    lacks the key, or whose identifier is null or a number makes the
    construction fail. *)
Theorem record_built_iff_string_skus (d : dict) (entries : list json) :
  dict_lookup "assignedLicenses" d = Some (JArr entries) ->
  (exists row, user_record (JObj d) = inr row) <-> forallb sku_is_string entries = true.
Proof.
  intros Hd. split.
  - intros [row Hrow]. rewrite user_record_object in Hrow.
    unfold license_skus, py_get, dict_get in Hrow. rewrite Hd in Hrow.
    cbn [rbind py_iter] in Hrow.
    destruct (collect (fun lic => py_getitem lic "skuId") entries) as [e|skus] eqn:Hc;
      [discriminate Hrow|]. cbn [rbind] in Hrow.
    apply (collect_sku_strings entries skus Hc).
    unfold joined_licenses in Hrow. destruct skus as [|v skus]; [constructor|].
    cbn [py_bool] in Hrow.
    destruct (str_join ", " (v :: skus)) as [e|lic] eqn:Hj; [discriminate Hrow|].
    apply (str_join_all_strings _ _ _ Hj).
  - intros Hs. destruct (sku_is_string_shape entries Hs) as [Hshape Hsku].
    eexists. apply user_record_complete.
    unfold complete_user, user_shape, licenses_of. rewrite Hd, Hshape, Hsku. reflexivity.
Qed.

Lemma record_built_iff_string_skus_witness :
  ~ (exists row, user_record (user_with_licenses [sku "A"; JObj [("skuId", JNull)]]) = inr row)
  /\
  (exists row, user_record (user_with_licenses [sku "A"; sku "B"]) = inr row).
Proof.
  split.
  - intros H.
    discriminate (proj1 (record_built_iff_string_skus
                    [("userPrincipalName", JStr "jane@contoso.com");
                     ("displayName", JStr "Doe, Jane");
                     ("accountEnabled", JBool true);
                     ("assignedLicenses", JArr [sku "A"; JObj [("skuId", JNull)]])]
                    [sku "A"; JObj [("skuId", JNull)]] eq_refl) H).
  - exact (proj2 (record_built_iff_string_skus
                    [("userPrincipalName", JStr "jane@contoso.com");
                     ("displayName", JStr "Doe, Jane");
                     ("accountEnabled", JBool true);
                     ("assignedLicenses", JArr [sku "A"; sku "B"])]
                    [sku "A"; sku "B"] eq_refl) eq_refl).
Defined.

(** ** The whole run *)

Lemma main_cases (repr : interpreter) (args : arguments) (w : world) :
  main repr args w
  = match dict_lookup "access_token" (provider_reply args w) with
    | None =>
        (inl (Exception ("Failed to acquire token: "
                         +:+ py_str repr (JObj (provider_reply args w)))),
         {| identity := identity w; network := network w; files := files w;
            denied := denied w;
            stdout := stdout w ++ take 1 (progress_lines args) |})
    | Some token =>
        match fetch_users_with_licenses repr token (network w) with
        | (inl e, n') =>
            (inl e,
             {| identity := identity w; network := n'; files := files w;
                denied := denied w;
                stdout := stdout w ++ take 2 (progress_lines args) |})
        | (inr users, n') =>
            if denied w (output args) then
              (inl (OSError (output args)),
               {| identity := identity w; network := n'; files := files w;
                  denied := denied w;
                  stdout := stdout w ++ take 3 (progress_lines args) |})
            else
              match write_lines (report_lines repr users) "" with
              | (inl e, content) =>
                  (inl e,
                   {| identity := identity w; network := n';
                      files := <[output args := content]> (files w);
                      denied := denied w;
                      stdout := stdout w ++ take 3 (progress_lines args) |})
              | (inr _, content) =>
                  (inr tt,
                   {| identity := identity w; network := n';
                      files := <[output args := content]> (files w);
                      denied := denied w;
                      stdout := stdout w ++ progress_lines args |})
              end
        end
    end.
Proof.
  rewrite main_after_token, get_access_token_reply.
  change (provider_reply args (snd (print "🔐 Getting access token..." w)))
    with (provider_reply args w).
  destruct (dict_lookup "access_token" (provider_reply args w)) as [token|];
    [|reflexivity].
  unfold fetch, print. cbn [snd network].
  destruct (fetch_users_with_licenses repr token (network w)) as [[e|users] n'].
  - cbn [identity network files denied stdout]. rewrite <- app_assoc. reflexivity.
  - unfold pbind, export_to_csv. cbn [identity network files denied stdout].
    destruct (denied w (output args)).
    + cbn [identity network files denied stdout]. rewrite <- !app_assoc. reflexivity.
    + destruct (write_lines (report_lines repr users) "") as [[e|[]] content];
        cbn [identity network files denied stdout]; rewrite <- !app_assoc; reflexivity.
Qed.

(** X8.  When the provider answers with a token, the fetch returns a
    list of records, the output path can be opened and no line to be
    written holds a lone surrogate, the program ends without error: the
    file at the output path holds the header line and one line for each
    record the fetch returned, in order, the network is as the fetch left
    it, and the four progress lines have been printed. *)
Theorem main_writes_fetched_records (repr : interpreter) (args : arguments)
    (w : world) (token : json) (users : list user_row) (n' : net) :
  dict_lookup "access_token" (provider_reply args w) = Some token ->
  fetch_users_with_licenses repr token (network w) = (inr users, n') ->
  denied w (output args) = false ->
  forallb (fun u => negb (has_surrogate (row_line repr u))) users = true ->
  exists w',
    main repr args w = (inr tt, w') /\
    files w' = <[output args := header_line +:+ String.concat "" (map (row_line repr) users)]>
                 (files w) /\
    network w' = n' /\
    stdout w' = stdout w ++ progress_lines args.
Proof.
  intros Htoken Hfetch Hopen Henc.
  rewrite main_cases, Htoken, Hfetch, Hopen, report_lines_rows.
  rewrite write_lines_encodable, concat_header_rows
    by (cbn [forallb]; rewrite forallb_over_map; exact Henc).
  eexists. repeat split.
Qed.

Lemma main_writes_fetched_records_witness :
  exists w',
    main no_repr example_args (example_world [("access_token", JStr "t")] [page_two])
    = (inr tt, w') /\
    files w'
    = <[output example_args :=
          header_line +:+ String.concat ""
            (map (row_line no_repr) [row_of "jane@contoso.com" "Doe, Jane" true "A, B"])]>
        (files (example_world [("access_token", JStr "t")] [page_two])) /\
    network w'
    = {| pending := [];
         sent := [get_request [("Authorization", "Bearer t")] (JStr users_url)] |} /\
    stdout w' = [] ++ progress_lines example_args.
Proof.
  exact (main_writes_fetched_records no_repr example_args
           (example_world [("access_token", JStr "t")] [page_two])
           (JStr "t") _ _ eq_refl eq_refl eq_refl eq_refl).
Defined.

(** X9.  When the output path cannot be opened, the program ends with
    the error of [open], after the token was obtained and all the pages
    were fetched: the requests have been issued, the records are lost and
    no file is written or changed. *)
Theorem main_output_denied (repr : interpreter) (args : arguments)
    (w : world) (token : json) (users : list user_row) (n' : net) :
  dict_lookup "access_token" (provider_reply args w) = Some token ->
  fetch_users_with_licenses repr token (network w) = (inr users, n') ->
  denied w (output args) = true ->
  exists w',
    main repr args w = (inl (OSError (output args)), w') /\
    files w' = files w /\
    network w' = n' /\
    stdout w' = stdout w ++ take 3 (progress_lines args).
Proof.
  intros Htoken Hfetch Hopen. rewrite main_cases, Htoken, Hfetch, Hopen.
  eexists. repeat split.
Qed.

Lemma main_output_denied_witness :
  exists w',
    main no_repr example_args
      {| identity := fun _ _ _ _ => [("access_token", JStr "t")];
         network := {| pending := [page_two]; sent := [] |};
         files := {["report.csv" := "old"]};
         denied := fun path => String.eqb path "report.csv";
         stdout := [] |}
    = (inl (OSError "report.csv"), w') /\
    files w' = {["report.csv" := "old"]} /\
    network w'
    = {| pending := [];
         sent := [get_request [("Authorization", "Bearer t")] (JStr users_url)] |} /\
    stdout w' = [] ++ take 3 (progress_lines example_args).
Proof.
  exact (main_output_denied no_repr example_args
           {| identity := fun _ _ _ _ => [("access_token", JStr "t")];
              network := {| pending := [page_two]; sent := [] |};
              files := {["report.csv" := "old"]};
              denied := fun path => String.eqb path "report.csv";
              stdout := [] |}
           (JStr "t") _ _ eq_refl eq_refl eq_refl).
Defined.

(** X10.  However the program ends, every file other than the one at the
    output path is what it was before the run. *)
Theorem main_touches_only_output (repr : interpreter) (args : arguments)
    (w : world) (p : string) :
  p <> output args ->
  files (snd (main repr args w)) !! p = files w !! p.
Proof.
  intros Hp. rewrite main_cases.
  destruct (dict_lookup "access_token" (provider_reply args w)) as [token|];
    [|reflexivity].
  destruct (fetch_users_with_licenses repr token (network w)) as [[e|users] n'];
    [reflexivity|].
  destruct (denied w (output args)); [reflexivity|].
  destruct (write_lines (report_lines repr users) "") as [[e|u] content];
    cbn [snd files]; apply lookup_insert_ne; congruence.
Qed.

Lemma main_touches_only_output_witness :
  files (snd (main no_repr
                {| tenant_id := "tenant"; client_id := "client"; client_secret := "secret";
                   output := "other.csv" |}
                (example_world [("access_token", JStr "t")] [page_two])))
    !! "report.csv"
  = Some "old".
Proof.
  refine (main_touches_only_output no_repr
            {| tenant_id := "tenant"; client_id := "client"; client_secret := "secret";
               output := "other.csv" |}
            (example_world [("access_token", JStr "t")] [page_two]) "report.csv" _).
  discriminate.
Defined.

(** X11.  The program prints its progress lines in their order and stops
    printing at the step that fails: at least the first line is printed,
    and the last line, the one that reports success, is printed if and
    only if the program ended without error. *)
Theorem main_progress_lines (repr : interpreter) (args : arguments) (w : world) :
  exists k,
    stdout (snd (main repr args w)) = stdout w ++ take k (progress_lines args) /\
    (1 <= k <= 4)%nat /\
    (k = 4%nat <-> fst (main repr args w) = inr tt).
Proof.
  rewrite main_cases.
  destruct (dict_lookup "access_token" (provider_reply args w)) as [token|].
  - destruct (fetch_users_with_licenses repr token (network w)) as [[e|users] n'].
    + exists 2%nat. split; [reflexivity|]. split; [lia|]. split; [lia|discriminate].
    + destruct (denied w (output args)).
      * exists 3%nat. split; [reflexivity|]. split; [lia|]. split; [lia|discriminate].
      * destruct (write_lines (report_lines repr users) "") as [[e|u] content].
        -- exists 3%nat. split; [reflexivity|]. split; [lia|]. split; [lia|discriminate].
        -- exists 4%nat. split; [reflexivity|]. split; [lia|]. split; reflexivity.
  - exists 1%nat. split; [reflexivity|]. split; [lia|]. split; [lia|discriminate].
Qed.

(** ** The file and the table *)












(** ** From the answer of the provider to the first request *)

(** X14.  The authenticator tests that [access_token] is there, not what
    it holds: whatever value the answer of the provider has under the
    key, be it null or an empty string, the program goes on to the fetch,
    and its first GET goes to the collection URL with the text of that
    value after the word Bearer. *)
Theorem main_sends_token_as_found (repr : interpreter) (args : arguments)
    (w : world) (v : json) :
  dict_lookup "access_token" (provider_reply args w) = Some v ->
  exists more,
    sent (network (snd (main repr args w)))
    = sent (network w)
      ++ get_request [("Authorization", "Bearer " +:+ py_str repr v)] (JStr users_url)
         :: more.
Proof.
  intros Hv. rewrite main_cases, Hv.
  destruct (while_url_sent (bearer repr v) (pending (network w)) (JStr users_url) []
              (sent (network w))) as [more Hmore].
  exists more. change (py_bool (JStr users_url)) with true in Hmore. cbv iota in Hmore.
  fold (fetch_users_with_licenses repr v (network w)) in Hmore.
  destruct (fetch_users_with_licenses repr v (network w)) as [[e|users] n'];
    cbn [snd] in Hmore; [exact Hmore|].
  destruct (denied w (output args)); [exact Hmore|].
  destruct (write_lines (report_lines repr users) "") as [[e|u] content]; exact Hmore.
Qed.

Lemma main_sends_token_as_found_witness :
  exists more,
    sent (network (snd (main no_repr example_args
                          (example_world [("access_token", JNull)] [forbidden]))))
    = [] ++ get_request [("Authorization", "Bearer None")] (JStr users_url) :: more.
Proof.
  exact (main_sends_token_as_found no_repr example_args
           (example_world [("access_token", JNull)] [forbidden]) JNull eq_refl).
Defined.


(** ** A text that cannot be encoded *)

(** X15.  When the output path can be opened and the line of some record
    holds a lone surrogate, the exporter raises the encoding error at the
    first such record: the file at the output path, whatever it held, is
    left with the header line and the lines of the records before that
    one, the records after it are not written, and no other file is
    touched. *)
Theorem export_stops_at_surrogate (repr : interpreter) (good : list user_row)
    (bad : user_row) (rest : list user_row) (output_file : string) (w : world) :
  denied w output_file = false ->
  forallb (fun u => negb (has_surrogate (row_line repr u))) good = true ->
  has_surrogate (row_line repr bad) = true ->
  exists w',
    export_to_csv repr (good ++ bad :: rest) output_file w = (inl UnicodeEncodeError, w') /\
    files w' !! output_file
    = Some (header_line +:+ String.concat "" (map (row_line repr) good)) /\
    (forall p, p <> output_file -> files w' !! p = files w !! p).
Proof.
  intros Hopen Hgood Hbad. unfold export_to_csv. rewrite Hopen, report_lines_rows, map_app.
  change (header_line :: map (row_line repr) good ++ map (row_line repr) (bad :: rest))
    with ((header_line :: map (row_line repr) good)
          ++ row_line repr bad :: map (row_line repr) rest).
  rewrite write_lines_stops, concat_header_rows;
    [|cbn [forallb]; rewrite forallb_over_map; exact Hgood|exact Hbad].
  eexists. split; [reflexivity|]. cbn [files].
  split; [apply lookup_insert_eq|].
  intros p Hp. apply lookup_insert_ne. congruence.
Qed.

Lemma export_stops_at_surrogate_witness :
  exists w',
    export_to_csv no_repr
      ([row_of "jane@contoso.com" "Doe, Jane" true "A, B"]
       ++ row_of "ann@contoso.com" lone_surrogate true "None"
          :: [row_of "bob@contoso.com" "Bob" false "None"])
      "report.csv" (example_world [] [])
    = (inl UnicodeEncodeError, w') /\
    files w' !! "report.csv"
    = Some (header_line +:+ String.concat ""
              (map (row_line no_repr) [row_of "jane@contoso.com" "Doe, Jane" true "A, B"])) /\
    (forall p, p <> "report.csv" -> files w' !! p = files (example_world [] []) !! p).
Proof.
  exact (export_stops_at_surrogate no_repr
           [row_of "jane@contoso.com" "Doe, Jane" true "A, B"]
           (row_of "ann@contoso.com" lone_surrogate true "None")
           [row_of "bob@contoso.com" "Bob" false "None"]
           "report.csv" (example_world [] []) eq_refl eq_refl eq_refl).
Defined.
